(** * emfdscore: moral-framework analysis, extraction manager and summary layer

    A shallow embedding of [emfdscore/moral_analysis.py] and
    [emfdscore/text_extraction.py], with the properties of the summary
    thresholds, the dominant-foundation search, the batch loop and the
    extractor resolution proved over it.

    Conventions.
    - Python exceptions are values of [exn]; a call that may raise returns
      [result A], and [try/except Exception] is a match on it.
    - Python [float] is IEEE binary64, taken from the kernel's [spec_float]
      (with NaN, infinities and signed zeros); the decimal literals of the
      source are the doubles the Python parser rounds them to.
    - A dict built by the code is an insertion-ordered association list; the
      score record received from the caller is a [gmap string float].
    - Document text is a list of Unicode code points, as [str.strip] and
      [str.split] depend on the Unicode white-space table; identifiers,
      paths and messages are ASCII [string]s. *)

From Stdlib Require Import ZArith QArith Qabs Lia Bool List Ascii String.
From Stdlib Require Import SpecFloat.
From stdpp Require Import gmap strings list fin_maps.

Local Open Scope Z_scope.

(* ===================================================================== *)
(** ** Python floats: IEEE binary64 *)
(* ===================================================================== *)

Module Float.

Definition prec : Z := 53.
Definition emax : Z := 1024.

(** A binary64 value: the mantissa of a finite number is canonical (normal
    numbers carry 53 bits, subnormals sit at the least exponent) and the
    exponent is in range. *)
Record float : Type := mkFloat {
  sf :> spec_float;
  sf_valid : valid_binary prec emax sf = true
}.

Definition is_nan (x : float) : bool :=
  match sf x with S754_nan => true | _ => false end.

(** Python's comparison operators on floats. *)
Definition lt (x y : float) : bool := SFltb x y.
Definition le (x y : float) : bool := SFleb x y.
Definition gt (x y : float) : bool := SFltb y x.
Definition ge (x y : float) : bool := SFleb y x.
Definition eqb (x y : float) : bool := SFeqb x y.

Definition zero : float := mkFloat (S754_zero false) eq_refl.
Definition nan : float := mkFloat S754_nan eq_refl.
Definition infinity : float := mkFloat (S754_infinity false) eq_refl.

(** The doubles denoted by the decimal literals of the source. *)
Definition lit_0_15 : float :=
  mkFloat (S754_finite false 5404319552844595 (-55)) eq_refl.
Definition lit_0_10 : float :=
  mkFloat (S754_finite false 7205759403792794 (-56)) eq_refl.
Definition lit_0_05 : float :=
  mkFloat (S754_finite false 7205759403792794 (-57)) eq_refl.
Definition lit_0_01 : float :=
  mkFloat (S754_finite false 5764607523034235 (-59)) eq_refl.
Definition lit_1_0 : float :=
  mkFloat (S754_finite false 4503599627370496 (-52)) eq_refl.
Definition lit_0_5 : float :=
  mkFloat (S754_finite false 4503599627370496 (-53)) eq_refl.
Definition lit_0_2 : float :=
  mkFloat (S754_finite false 7205759403792794 (-55)) eq_refl.
Definition lit_0_1 : float := lit_0_10.

(** An order embedding of the non-NaN floats into the integers: the value
    scaled by [2^1074], so that the least subnormal becomes [1]; the
    infinities are placed beyond every finite number. *)
Definition scale : Z := 1074.
Definition top : Z := 2 ^ 2100.

Definition ord (x : float) : Z :=
  match sf x with
  | S754_zero _ => 0
  | S754_nan => 0
  | S754_infinity s => if s then - top else top
  | S754_finite s m e =>
      if s then - (Zpos m * 2 ^ (e + scale)) else Zpos m * 2 ^ (e + scale)
  end.

(** The exact value of a finite float as a rational number. *)
Definition to_Q (x : float) : Q :=
  match sf x with
  | S754_finite s m e =>
      let v := (inject_Z (Zpos m) * (2 # 1) ^ e)%Q in
      if s then Qopp v else v
  | _ => 0%Q
  end.

End Float.

Export Float.

(* ===================================================================== *)
(** ** The Python fragment the sources use *)
(* ===================================================================== *)

Local Open Scope string_scope.

(** Exceptions (subclasses of [Exception]) with their message. *)
Inductive exn : Type :=
  | KeyError (key : string)
  | ValueError (msg : string)
  | TypeError (msg : string)
  | FileNotFoundError (msg : string)
  | UnicodeDecodeError (msg : string)
  | ImportError (msg : string)
  | ZeroDivisionError (msg : string)
  | OtherError (cls msg : string).

(** [str(e)] *)
Definition exn_str (e : exn) : string :=
  match e with
  | KeyError key => "'" +:+ key +:+ "'"
  | ValueError msg | TypeError msg | FileNotFoundError msg
  | UnicodeDecodeError msg | ImportError msg | ZeroDivisionError msg => msg
  | OtherError _ msg => msg
  end.

(** The outcome of a call: a value, or a raised exception. *)
Inductive result (A : Type) : Type :=
  | Ok (a : A)
  | Raise (e : exn).
Arguments Ok {A} a.
Arguments Raise {A} e.

#[export] Instance result_ret : MRet result := @Ok.
#[export] Instance result_bind : MBind result :=
  fun A B (f : A -> result B) (m : result A) =>
    match m with
    | Ok a => f a
    | Raise e => Raise e
    end.

Definition is_ok {A} (r : result A) : bool :=
  match r with Ok _ => true | Raise _ => false end.

(** Document text: a sequence of Unicode code points. *)
Definition text : Type := list N.

(** [str.isspace] on one code point (the table of CPython's
    [_PyUnicode_IsWhitespace]). *)
Definition isspace (c : N) : bool :=
  ((9 <=? c) && (c <=? 13) || (28 <=? c) && (c <=? 32)
   || (c =? 133) || (c =? 160) || (c =? 5760)
   || (8192 <=? c) && (c <=? 8202) || (c =? 8232) || (c =? 8233)
   || (c =? 8239) || (c =? 8287) || (c =? 12288))%N.

Fixpoint lstrip (t : text) : text :=
  match t with
  | [] => []
  | c :: t' => if isspace c then lstrip t' else t
  end.

Definition rstrip (t : text) : text := rev (lstrip (rev t)).

(** [str.strip()] *)
Definition strip (t : text) : text := rstrip (lstrip t).

(** Truth value of a string or a list: non-empty. *)
Definition truthy {A} (l : list A) : bool :=
  match l with [] => false | _ :: _ => true end.

(** [str.split()]: the maximal runs of non-white-space characters; [cur]
    holds the current run, reversed. *)
Fixpoint split_from (cur : text) (t : text) : list text :=
  match t with
  | [] => if truthy cur then [rev cur] else []
  | c :: t' =>
      if isspace c
      then (if truthy cur then rev cur :: split_from [] t' else split_from [] t')
      else split_from (c :: cur) t'
  end.

Definition split (t : text) : list text := split_from [] t.

(** ['\n'.join(parts)] *)
Fixpoint join_lines (parts : list text) : text :=
  match parts with
  | [] => []
  | [p] => p
  | p :: rest => (p ++ 10%N :: join_lines rest)%list
  end.

(** [str.lower] and [str.endswith] on ASCII strings. *)
Definition lower_ascii (c : ascii) : ascii :=
  let n := nat_of_ascii c in
  if ((65 <=? n) && (n <=? 90))%nat then ascii_of_nat (n + 32) else c.

Fixpoint lower (s : string) : string :=
  match s with
  | EmptyString => EmptyString
  | String c s' => String (lower_ascii c) (lower s')
  end.

Definition endswith (s suffix : string) : bool :=
  let n := String.length s in
  let k := String.length suffix in
  (k <=? n)%nat && String.eqb (substring (n - k) k s) suffix.

(** Insertion-ordered dicts with string keys. *)
Definition alist (V : Type) : Type := list (string * V).

Fixpoint aget {V} (d : alist V) (k : string) : option V :=
  match d with
  | [] => None
  | (k', v) :: d' => if String.eqb k' k then Some v else aget d' k
  end.

(** [k in d] *)
Definition acontains {V} (d : alist V) (k : string) : bool :=
  match aget d k with Some _ => true | None => false end.

(** [d[k]] *)
Definition agetitem {V} (d : alist V) (k : string) : result V :=
  match aget d k with Some v => Ok v | None => Raise (KeyError k) end.

(** [d[k] = v]: an existing key keeps its position, a new key goes last. *)
Fixpoint aset {V} (d : alist V) (k : string) (v : V) : alist V :=
  match d with
  | [] => [(k, v)]
  | (k', v') :: d' =>
      if String.eqb k' k then (k', v) :: d' else (k', v') :: aset d' k v
  end.

(** The values stored in the dicts the analyzer returns. *)
#[local] Unset Elimination Schemes.
Inductive value : Type :=
  | VStr (s : string)
  | VInt (n : Z)
  | VFloat (x : float)
  | VDict (d : list (string * value)).
#[local] Set Elimination Schemes.

(** [d[k1][k2] = v] *)
Definition aset_nested (d : alist value) (k1 k2 : string) (v : value)
  : result (alist value) :=
  inner ← agetitem d k1;
  match inner with
  | VDict i => Ok (aset d k1 (VDict (aset i k2 v)))
  | _ => Raise (TypeError "object does not support item assignment")
  end.

(** The score record handed to the summary: metric name to float. *)
Definition contains (scores : gmap string float) (k : string) : bool :=
  match scores !! k with Some _ => true | None => false end.

Definition getitem (scores : gmap string float) (k : string) : result float :=
  match scores !! k with Some v => Ok v | None => Raise (KeyError k) end.

(** [max(items, key=key)]: the first item whose key no later item exceeds;
    a later item replaces the current best only when its key is [>]. *)
Definition py_max {A} (key : A -> float) (items : list A) : result A :=
  match items with
  | [] => Raise (ValueError "max() arg is an empty sequence")
  | x :: rest =>
      Ok (fold_left (fun best item =>
                       if gt (key item) (key best) then item else best)
                    rest x)
  end.

(* ===================================================================== *)
(** ** emfdscore/text_extraction.py *)
(* ===================================================================== *)

Module TextExtraction.

(** What the module sees of the operating system and of the optional PDF
    and OCR packages. *)
Record world : Type := {
  (** [os.path.exists] *)
  os_path_exists : string -> bool;
  (** [os.stat]: [st_size] and [st_mtime] *)
  os_stat : string -> result (Z * float);
  (** [open(path, 'r', encoding=enc)] followed by [read()] *)
  open_read : string -> string -> result text;
  (** the three import flags *)
  PDF_AVAILABLE : bool;
  PYPDF2_AVAILABLE : bool;
  OCR_AVAILABLE : bool;
  (** [page.extract_text()] of every page, by pdfplumber and by PyPDF2;
      [None] is a page without text *)
  pdfplumber_pages : string -> result (list (option text));
  pypdf2_pages : string -> result (list (option text));
  (** [pytesseract.image_to_string] of every rasterised page *)
  ocr_pages : string -> result (list text);
  (** [len(pdf.pages)] and [pdf.metadata or {}] *)
  pdfplumber_metadata : string -> result (Z * alist value)
}.

(** Keyword arguments passed through to the extractors. *)
Definition kwargs : Type := gmap string string.

(** [TextExtractorBase]: the interface of an extractor. *)
Record extractor : Type := {
  class_name : string;
  supports_file : string -> bool;
  extract : string -> kwargs -> result text;
  get_metadata : string -> result (alist value)
}.

Section Extractors.
Variable w : world.

(** *** TxtExtractor *)

Definition fallback_encodings : list string :=
  ["latin-1"; "cp1252"; "iso-8859-1"].

(** The [for enc in [...]] loop of [TxtExtractor.extract]. *)
Fixpoint txt_try_encodings (file_path : string) (encs : list string)
  : result text :=
  match encs with
  | [] => Raise (ValueError ("Unable to decode text file " +:+ file_path))
  | enc :: rest =>
      match open_read w file_path enc with
      | Ok t => Ok t
      | Raise (UnicodeDecodeError _) => txt_try_encodings file_path rest
      | Raise e => Raise e
      end
  end.

Definition txt_extract (file_path : string) (kw : kwargs) : result text :=
  let encoding := default "utf-8" (kw !! "encoding") in
  match open_read w file_path encoding with
  | Ok t => Ok t
  | Raise (UnicodeDecodeError _) =>
      txt_try_encodings file_path fallback_encodings
  | Raise e => Raise e
  end.

Definition txt_supports_file (file_path : string) : bool :=
  endswith (lower file_path) ".txt" || endswith (lower file_path) ".text".

Definition txt_get_metadata (file_path : string) : result (alist value) :=
  if os_path_exists w file_path then
    st ← os_stat w file_path;
    Ok [("file_size", VInt st.1); ("file_type", VStr "text");
        ("modified_time", VFloat st.2)]
  else Ok [].

Definition TxtExtractor : extractor :=
  {| class_name := "TxtExtractor";
     supports_file := txt_supports_file;
     extract := txt_extract;
     get_metadata := txt_get_metadata |}.

(** *** PDFExtractor *)

(** The pages that yielded text, joined by newlines. *)
Definition join_pages (pages : list (option text)) : text :=
  join_lines (omap (fun p => match p with
                             | Some t => if truthy t then Some t else None
                             | None => None
                             end) pages).

Definition _extract_with_pdfplumber (file_path : string) : result text :=
  pages ← pdfplumber_pages w file_path; Ok (join_pages pages).

Definition _extract_with_pypdf2 (file_path : string) : result text :=
  pages ← pypdf2_pages w file_path; Ok (join_pages pages).

Definition _extract_with_ocr (file_path : string) : result text :=
  if negb (OCR_AVAILABLE w) then
    Raise (ImportError "OCR dependencies not available")
  else
    pages ← ocr_pages w file_path;
    Ok (join_lines (filter (fun t => truthy (strip t) = true) pages)).

(** One [try: text = f(path); if text.strip(): return text
    except Exception: ...] step: [inl] is the early return, [inr] the
    value of [text] carried on. *)
Definition pdf_attempt (available : bool) (f : string -> result text)
    (file_path : string) (current : text) : text + text :=
  if available then
    match f file_path with
    | Ok t => if truthy (strip t) then inl t else inr t
    | Raise _ => inr current
    end
  else inr current.

Definition pdf_extract (use_ocr_fallback : bool) (file_path : string)
    (kw : kwargs) : result text :=
  match pdf_attempt (PDF_AVAILABLE w) _extract_with_pdfplumber file_path [] with
  | inl t => Ok t
  | inr t1 =>
      match pdf_attempt (PYPDF2_AVAILABLE w) _extract_with_pypdf2 file_path t1 with
      | inl t => Ok t
      | inr t2 =>
          let t3 :=
            if use_ocr_fallback && negb (truthy (strip t2)) then
              match _extract_with_ocr file_path with
              | Ok t => t
              | Raise _ => t2
              end
            else t2 in
          if negb (truthy (strip t3)) then
            Raise (ValueError ("Unable to extract text from PDF: " +:+ file_path))
          else Ok t3
      end
  end.

Definition pdf_supports_file (file_path : string) : bool :=
  endswith (lower file_path) ".pdf".

Definition pdf_get_metadata (file_path : string) : result (alist value) :=
  if negb (os_path_exists w file_path) then Ok []
  else
    st ← os_stat w file_path;
    let metadata :=
      [("file_size", VInt st.1); ("file_type", VStr "pdf");
       ("modified_time", VFloat st.2)] in
    if PDF_AVAILABLE w then
      match pdfplumber_metadata w file_path with
      | Ok pm =>
          Ok (aset (aset metadata "page_count" (VInt pm.1))
                   "pdf_metadata" (VDict pm.2))
      | Raise _ => Ok metadata
      end
    else Ok metadata.

(** [PDFExtractor(use_ocr_fallback)]; the constructor raises when no PDF
    package is installed. *)
Definition PDFExtractor (use_ocr_fallback : bool) : result extractor :=
  let use_ocr := use_ocr_fallback && OCR_AVAILABLE w in
  if negb (PDF_AVAILABLE w) && negb (PYPDF2_AVAILABLE w) then
    Raise (ImportError
             "Neither pdfplumber nor PyPDF2 is available for PDF processing")
  else
    Ok {| class_name := "PDFExtractor";
          supports_file := pdf_supports_file;
          extract := pdf_extract use_ocr;
          get_metadata := pdf_get_metadata |}.

(** *** TextExtractionManager *)

Definition register_extractor (extractors : list extractor)
    (e : extractor) : list extractor :=
  (extractors ++ [e])%list.

Definition register_default_extractors (extractors : list extractor)
  : list extractor :=
  let extractors := register_extractor extractors TxtExtractor in
  match PDFExtractor true with
  | Ok pdf => register_extractor extractors pdf
  | Raise _ => extractors  (* the constructor raises ImportError only *)
  end.

(** [TextExtractionManager()] *)
Definition default_extractors : list extractor :=
  register_default_extractors [].

(** The calls the manager makes on its extractors, by position in the
    registration list. *)
Inductive call : Type :=
  | CallSupports (i : nat)
  | CallExtract (i : nat).

(** The [for extractor in self.extractors] loop of [extract_text], from
    position [i] on; the first component is the log of the calls made. *)
Fixpoint try_extractors (i : nat) (extractors : list extractor)
    (file_path : string) (kw : kwargs) : list call * result text :=
  match extractors with
  | [] =>
      ([], Raise (ValueError
                    ("No suitable extractor found for file: " +:+ file_path)))
  | e :: rest =>
      if supports_file e file_path then
        match extract e file_path kw with
        | Ok t => ([CallSupports i; CallExtract i], Ok t)
        | Raise _ =>
            let '(log, r) := try_extractors (S i) rest file_path kw in
            (CallSupports i :: CallExtract i :: log, r)
        end
      else
        let '(log, r) := try_extractors (S i) rest file_path kw in
        (CallSupports i :: log, r)
  end.

Definition extract_text_logged (extractors : list extractor)
    (file_path : string) (kw : kwargs) : list call * result text :=
  if negb (os_path_exists w file_path) then
    ([], Raise (FileNotFoundError ("File not found: " +:+ file_path)))
  else try_extractors 0 extractors file_path kw.

Definition extract_text (extractors : list extractor)
    (file_path : string) (kw : kwargs) : result text :=
  (extract_text_logged extractors file_path kw).2.

Fixpoint get_file_metadata (extractors : list extractor)
    (file_path : string) : result (alist value) :=
  match extractors with
  | [] => Ok []
  | e :: rest =>
      if supports_file e file_path then get_metadata e file_path
      else get_file_metadata rest file_path
  end.

(** The extractors of the two built-in classes are recognised by class. *)
Fixpoint get_supported_extensions (extractors : list extractor)
  : list string :=
  match extractors with
  | [] => []
  | e :: rest =>
      (if String.eqb (class_name e) "TxtExtractor" then [".txt"; ".text"]
       else if String.eqb (class_name e) "PDFExtractor" then [".pdf"]
       else [])%list ++ get_supported_extensions rest
  end%list.

End Extractors.

End TextExtraction.

(* ===================================================================== *)
(** ** emfdscore/moral_analysis.py *)
(* ===================================================================== *)

Module MoralAnalysis.
Import TextExtraction.

(** *** The summary layer *)

Definition _categorize_score (score : float) : string :=
  if ge score lit_0_15 then "very_high"
  else if ge score lit_0_10 then "high"
  else if ge score lit_0_05 then "moderate"
  else if ge score lit_0_01 then "low"
  else "very_low".

Definition _interpret_moral_density (ratio : float) : string :=
  if ge ratio lit_1_0 then "very_high_moral_content"
  else if ge ratio lit_0_5 then "high_moral_content"
  else if ge ratio lit_0_2 then "moderate_moral_content"
  else if ge ratio lit_0_1 then "low_moral_content"
  else "very_low_moral_content".

Definition emfd_foundations : list string :=
  ["care"; "fairness"; "loyalty"; "authority"; "sanctity"].

Definition mfd_foundations : list string :=
  ["care.virtue"; "fairness.virtue"; "loyalty.virtue";
   "authority.virtue"; "sanctity.virtue";
   "care.vice"; "fairness.vice"; "loyalty.vice";
   "authority.vice"; "sanctity.vice"].

(** The first loop of the eMFD branch: the probability and sentiment
    scores present in the record, keyed by foundation. *)
Fixpoint collect_scores (scores : gmap string float)
    (foundations : list string) (prob_scores sent_scores : alist float)
  : result (alist float * alist float) :=
  match foundations with
  | [] => Ok (prob_scores, sent_scores)
  | foundation :: rest =>
      let prob_key := foundation +:+ "_p" in
      let sent_key := foundation +:+ "_sent" in
      prob_scores ←
        (if contains scores prob_key then
           v ← getitem scores prob_key; Ok (aset prob_scores foundation v)
         else Ok prob_scores);
      sent_scores ←
        (if contains scores sent_key then
           v ← getitem scores sent_key; Ok (aset sent_scores foundation v)
         else Ok sent_scores);
      collect_scores scores rest prob_scores sent_scores
  end.

Definition sentiment_direction (s : float) : string :=
  if gt s zero then "positive"
  else if lt s zero then "negative"
  else "neutral".

(** The body of the second loop: the [foundation_summary] dict. *)
Definition foundation_summary (prob_scores sent_scores : alist float)
    (foundation : string) : result (alist value) :=
  fsum ←
    (if acontains prob_scores foundation then
       p ← agetitem prob_scores foundation;
       let fsum := aset [] "probability" (VFloat p) in
       p ← agetitem prob_scores foundation;
       Ok (aset fsum "strength" (VStr (_categorize_score p)))
     else Ok []);
  (if acontains sent_scores foundation then
     s ← agetitem sent_scores foundation;
     let fsum := aset fsum "sentiment" (VFloat s) in
     s ← agetitem sent_scores foundation;
     Ok (aset fsum "sentiment_direction" (VStr (sentiment_direction s)))
   else Ok fsum).

Fixpoint summarize_foundations (foundations : list string)
    (prob_scores sent_scores : alist float) (summary : alist value)
  : result (alist value) :=
  match foundations with
  | [] => Ok summary
  | foundation :: rest =>
      fsum ← foundation_summary prob_scores sent_scores foundation;
      summary ←
        (if truthy fsum then
           aset_nested summary "moral_foundations" foundation (VDict fsum)
         else Ok summary);
      summarize_foundations rest prob_scores sent_scores summary
  end.

(** The [moral_density] entry, added by both branches. *)
Definition add_moral_density (scores : gmap string float)
    (summary : alist value) : result (alist value) :=
  if contains scores "moral_nonmoral_ratio" then
    ratio ← getitem scores "moral_nonmoral_ratio";
    ratio' ← getitem scores "moral_nonmoral_ratio";
    Ok (aset summary "moral_density"
          (VDict [("ratio", VFloat ratio);
                  ("interpretation",
                   VStr (_interpret_moral_density ratio'))]))
  else Ok summary.

(** The loop of the MFD / MFD2 branch. *)
Fixpoint summarize_mfd (scores : gmap string float)
    (foundations : list string) (summary : alist value)
  : result (alist value) :=
  match foundations with
  | [] => Ok summary
  | foundation :: rest =>
      summary ←
        (if contains scores foundation then
           s ← getitem scores foundation;
           s' ← getitem scores foundation;
           aset_nested summary "moral_foundations" foundation
             (VDict [("score", VFloat s);
                     ("strength", VStr (_categorize_score s'))])
         else Ok summary);
      summarize_mfd scores rest summary
  end.

Definition get_moral_summary (scores : gmap string float)
    (dict_type : string) : result (alist value) :=
  let summary :=
    [("dictionary_used", VStr dict_type); ("moral_foundations", VDict [])] in
  if String.eqb dict_type "emfd" then
    '(prob_scores, sent_scores) ←
      collect_scores scores emfd_foundations [] [];
    summary ←
      (if truthy prob_scores then
         dominant_foundation ← py_max snd prob_scores;
         Ok (aset summary "dominant_foundation"
               (VDict [("name", VStr dominant_foundation.1);
                       ("probability", VFloat dominant_foundation.2)]))
       else Ok summary);
    summary ←
      summarize_foundations emfd_foundations prob_scores sent_scores summary;
    add_moral_density scores summary
  else if existsb (String.eqb dict_type) ["mfd"; "mfd2"] then
    summary ← summarize_mfd scores mfd_foundations summary;
    add_moral_density scores summary
  else Ok summary.

(** *** Text, file and batch analysis *)

(** The scoring stack behind [analyze_text]: pandas and
    [emfdscore.scoring.score_docs], which are not part of these modules. *)
Record backend : Type := {
  DataFrame : Type;
  (** writing the quoted text to a temporary CSV file and reading it back
      with [pd.read_csv(path, header=None)] *)
  read_csv_of_text : text -> result DataFrame;
  (** [len(df)] *)
  df_len : DataFrame -> nat;
  (** [score_docs(csv, dict_type, prob_map, score_method, output_metrics,
      num_docs)]; the rows of the returned frame, each as a dict *)
  score_docs : DataFrame -> string -> string -> string -> string -> nat ->
               result (list (gmap string float))
}.

(** The keyword parameters shared by the analysis entry points. *)
Record parameters : Type := {
  dict_type : string;
  prob_map : string;
  score_method : string;
  output_metrics : string
}.

Definition default_parameters : parameters :=
  {| dict_type := "emfd"; prob_map := "all"; score_method := "bow";
     output_metrics := "sentiment" |}.

(** The dict returned by [analyze_file]. *)
Record file_analysis : Type := {
  file_path : string;
  file_metadata : alist value;
  extracted_text : text;
  text_length : nat;
  word_count : nat;
  moral_scores : gmap string float;
  analysis_parameters : parameters
}.

(** An element of the list returned by [analyze_batch]: the dict of
    [analyze_file], or the dict
    [{'file_path': .., 'error': str(e), 'moral_scores': {}}]. *)
Inductive batch_entry : Type :=
  | Analysed (r : file_analysis)
  | Failed (path : string) (error : string).

(** The keys of an entry, as a dict. *)
Definition entry_keys (e : batch_entry) : list string :=
  match e with
  | Analysed _ =>
      ["file_path"; "file_metadata"; "extracted_text"; "text_length";
       "word_count"; "moral_scores"; "analysis_parameters"]
  | Failed _ _ => ["file_path"; "error"; "moral_scores"]
  end.

Definition has_error (e : batch_entry) : bool :=
  existsb (String.eqb "error") (entry_keys e).

Section Analyzer.
Variable w : world.
Variable b : backend.
(** [self.text_manager.extractors] *)
Variable extractors : list extractor.

(** [analyze_text] after its guard: the temporary CSV file, the call of
    [score_docs] and the first row of its result. *)
Definition score_text (t : text) (p : parameters)
  : result (gmap string float) :=
  csv_data ← read_csv_of_text b t;
  let num_docs := df_len b csv_data in
  df ←
    (if String.eqb (dict_type p) "emfd" then
       score_docs b csv_data (dict_type p) (prob_map p) (score_method p)
         (output_metrics p) num_docs
     else
       score_docs b csv_data (dict_type p) "" (score_method p) "" num_docs);
  match df with
  | row :: _ => Ok row
  | [] => Ok ∅
  end.

Definition analyze_text (t : text) (p : parameters)
  : result (gmap string float) :=
  if negb (truthy (strip t)) then Raise (ValueError "Input text is empty")
  else score_text t p.

Definition analyze_file (path : string) (p : parameters) (kw : kwargs)
  : result file_analysis :=
  t ← extract_text w extractors path kw;
  metadata ← get_file_metadata extractors path;
  scores ← analyze_text t p;
  Ok {| file_path := path;
        file_metadata := metadata;
        extracted_text := t;
        text_length := length t;
        word_count := length (split t);
        moral_scores := scores;
        analysis_parameters := p |}.

(** One iteration of the loop of [analyze_batch]. *)
Definition batch_step (p : parameters) (kw : kwargs)
    (results : list batch_entry) (path : string) : list batch_entry :=
  match analyze_file path p kw with
  | Ok r => (results ++ [Analysed r])%list
  | Raise e => (results ++ [Failed path (exn_str e)])%list
  end.

Definition analyze_batch (file_paths : list string) (p : parameters)
    (kw : kwargs) : list batch_entry :=
  fold_left (batch_step p kw) file_paths [].

End Analyzer.

End MoralAnalysis.


(* ===================================================================== *)
(** ** The moral/non-moral ratio of the scorer *)
(* ===================================================================== *)

Module Scoring.

(** Modelled from the spec: the lexicon of section 3, a map from a
    normalised token to its per-foundation weights (the dictionary loader is
    not among the sources). *)
Definition lexicon : Type := gmap string (list float).

(** Modelled from the spec: the document of section 3, the ordered sequence
    of its normalised tokens (the tokenizer is not among the sources). *)
Definition document : Type := list string.

(** Modelled from the spec: a token matches when the lexicon has an entry
    for it (the scorer is not among the sources). *)
Definition in_lexicon (lex : lexicon) (token : string) : bool :=
  match lex !! token with Some _ => true | None => false end.

(** Modelled from the spec: the count of matched tokens of section 4.3 (the
    scorer is not among the sources). *)
Definition matched_count (lex : lexicon) (doc : document) : nat :=
  length (List.filter (in_lexicon lex) doc).

(** Modelled from the spec: the count of unmatched tokens of section 4.3
    (the scorer is not among the sources). *)
Definition unmatched_count (lex : lexicon) (doc : document) : nat :=
  length (List.filter (fun token => negb (in_lexicon lex token)) doc).



End Scoring.

(* ===================================================================== *)
(** ** Specification vocabulary *)
(* ===================================================================== *)

Module Spec.
Import TextExtraction MoralAnalysis.

(** The five strength bands, from the weakest to the strongest. *)
Definition strength_rank (label : string) : nat :=
  if String.eqb label "very_high" then 4
  else if String.eqb label "high" then 3
  else if String.eqb label "moderate" then 2
  else if String.eqb label "low" then 1
  else 0.

(** Empty or white space only. *)
Definition is_blank (t : text) : bool := forallb isspace t.

(** The scores of a record under the keys [foundation ++ suffix], keyed by
    foundation, in the order of [foundations]. *)
Definition present_scores (scores : gmap string float) (suffix : string)
    (foundations : list string) : alist float :=
  omap (fun f => pair f <$> scores !! (f +:+ suffix)) foundations.

(** What the summary says about one foundation of the eMFD. *)
Definition foundation_entry (prob_scores sent_scores : alist float)
    (foundation : string) : alist value :=
  (match aget prob_scores foundation with
   | Some p => [("probability", VFloat p);
                ("strength", VStr (_categorize_score p))]
   | None => []
   end ++
   match aget sent_scores foundation with
   | Some s => [("sentiment", VFloat s);
                ("sentiment_direction", VStr (sentiment_direction s))]
   | None => []
   end)%list.

Definition keyed_entry (prob_scores sent_scores : alist float)
    (foundation : string) : option (string * value) :=
  pair foundation <$>
    (let e := foundation_entry prob_scores sent_scores foundation in
     if truthy e then Some (VDict e) else None).

Definition foundation_entries (prob_scores sent_scores : alist float)
    (foundations : list string) : alist value :=
  omap (keyed_entry prob_scores sent_scores) foundations.

Definition mfd_entry (scores : gmap string float) (foundation : string)
  : option (string * value) :=
  pair foundation <$>
    ((fun s => VDict [("score", VFloat s);
                      ("strength", VStr (_categorize_score s))])
       <$> scores !! foundation).

Definition mfd_entries (scores : gmap string float)
    (foundations : list string) : alist value :=
  omap (mfd_entry scores) foundations.

(** The first item of a non-empty list that no item exceeds. *)
Definition first_max (x : string * float) (rest : list (string * float))
  : string * float :=
  fold_left (fun best item => if gt item.2 best.2 then item else best) rest x.

(** No item of [l] is greater than [r]. *)
Definition never_exceeded (r : string * float) (l : list (string * float))
  : Prop :=
  forall y, y ∈ l -> gt y.2 r.2 = false.

(** No item of [l] is greater than or equal to [r]. *)
Definition strictly_ahead (r : string * float) (l : list (string * float))
  : Prop :=
  forall y, y ∈ l -> gt y.2 r.2 = false /\ eqb y.2 r.2 = false.

Definition dominant_entry (prob_scores : alist float) : alist value :=
  match prob_scores with
  | [] => []
  | x :: rest =>
      [("dominant_foundation",
        VDict [("name", VStr (first_max x rest).1);
               ("probability", VFloat (first_max x rest).2)])]
  end.

Definition density_entry (scores : gmap string float) : alist value :=
  match scores !! "moral_nonmoral_ratio" with
  | Some r => [("moral_density",
                VDict [("ratio", VFloat r);
                       ("interpretation", VStr (_interpret_moral_density r))])]
  | None => []
  end.

(** The summary of an eMFD record, in closed form. *)
Definition emfd_summary (scores : gmap string float) : alist value :=
  let ps := present_scores scores "_p" emfd_foundations in
  let ss := present_scores scores "_sent" emfd_foundations in
  (("dictionary_used", VStr "emfd")
   :: ("moral_foundations", VDict (foundation_entries ps ss emfd_foundations))
   :: dominant_entry ps ++ density_entry scores)%list.

(** The summary of an MFD or MFD2 record, in closed form. *)
Definition mfd_summary (scores : gmap string float) (dict_type : string)
  : alist value :=
  (("dictionary_used", VStr dict_type)
   :: ("moral_foundations", VDict (mfd_entries scores mfd_foundations))
   :: density_entry scores)%list.

(** The summary of any record, by dictionary type. *)
Definition closed_summary (scores : gmap string float) (dict_type : string)
  : alist value :=
  if String.eqb dict_type "emfd" then emfd_summary scores
  else if existsb (String.eqb dict_type) ["mfd"; "mfd2"]
       then mfd_summary scores dict_type
       else [("dictionary_used", VStr dict_type);
             ("moral_foundations", VDict [])].

(** A field of a nested dict, by the path of keys leading to it. *)
Fixpoint lookup_path (d : alist value) (path : list string) : option value :=
  match path with
  | [] => None
  | [k] => aget d k
  | k :: rest =>
      match aget d k with
      | Some (VDict inner) => lookup_path inner rest
      | _ => None
      end
  end.

(** The score keys a dictionary type calls for, each with the fields of the
    summary that are derived from it. *)
Definition derived_fields (dict_type : string)
  : list (string * list (list string)) :=
  if String.eqb dict_type "emfd" then
    (flat_map (fun f =>
                 [(f +:+ "_p", [["moral_foundations"; f; "probability"];
                                ["moral_foundations"; f; "strength"]]);
                  (f +:+ "_sent", [["moral_foundations"; f; "sentiment"];
                                   ["moral_foundations"; f;
                                    "sentiment_direction"]])])
       emfd_foundations
     ++ [("moral_nonmoral_ratio", [["moral_density"]])])%list
  else if existsb (String.eqb dict_type) ["mfd"; "mfd2"] then
    (map (fun f => (f, [["moral_foundations"; f]])) mfd_foundations
     ++ [("moral_nonmoral_ratio", [["moral_density"]])])%list
  else [].

(** The entry [analyze_batch] records for one path. *)
Definition entry_of (w : world) (b : backend) (extractors : list extractor)
    (p : parameters) (kw : kwargs) (path : string) : batch_entry :=
  match analyze_file w b extractors path p kw with
  | Ok r => Analysed r
  | Raise e => Failed path (exn_str e)
  end.

(** The calls made on the extractor at position [i]. *)
Definition calls_on (file_path : string) (i : nat) (e : extractor)
  : list call :=
  if supports_file e file_path then [CallSupports i; CallExtract i]
  else [CallSupports i].

(** The calls made on the extractors [es], registered from position [i]. *)
Fixpoint calls_from (file_path : string) (i : nat) (es : list extractor)
  : list call :=
  match es with
  | [] => []
  | e :: rest => (calls_on file_path i e ++ calls_from file_path (S i) rest)%list
  end.

(** An extractor that takes the file and extracts it. *)
Definition wins (file_path : string) (kw : kwargs) (e : extractor) : bool :=
  supports_file e file_path && is_ok (extract e file_path kw).

(** The error of [extract_text] when the loop over the extractors ends. *)
Definition not_found (file_path : string) : result text :=
  Raise (ValueError ("No suitable extractor found for file: " +:+ file_path)).

(** The error of [TxtExtractor.extract] when no encoding decodes the file. *)
Definition undecodable (file_path : string) : result text :=
  Raise (ValueError ("Unable to decode text file " +:+ file_path)).

Definition is_decode_error {A} (r : result A) : bool :=
  match r with Raise (UnicodeDecodeError _) => true | _ => false end.

End Spec.


(* ===================================================================== *)
(** ** Sample data *)
(* ===================================================================== *)

Module Samples.
Import TextExtraction MoralAnalysis.

(** "fair court" *)
Definition sample_text : text :=
  [102; 97; 105; 114; 32; 99; 111; 117; 114; 116]%N.

(** An eMFD record in which fairness and loyalty tie for the first place. *)
Definition sample_scores : gmap string float :=
  list_to_map
    [("care_p", lit_0_05); ("fairness_p", lit_0_15);
     ("loyalty_p", lit_0_15); ("authority_p", lit_0_10);
     ("sanctity_p", lit_0_01); ("care_sent", zero);
     ("moral_nonmoral_ratio", lit_0_2)].

(** A record without a sentiment for care and without a ratio. *)
Definition partial_scores : gmap string float :=
  list_to_map [("care_p", lit_0_05); ("fairness_p", lit_0_15)].

(** One text file that is not valid UTF-8 but decodes as Latin-1, a PDF
    that no installed package can read, and nothing else. *)
Definition sample_world : world :=
  {| os_path_exists :=
       fun path => String.eqb path "notes.txt" || String.eqb path "scan.pdf";
     os_stat := fun _ => Ok (10%Z, zero);
     open_read :=
       fun path enc =>
         if String.eqb path "notes.txt" then
           if String.eqb enc "utf-8"
           then Raise (UnicodeDecodeError "invalid start byte")
           else Ok sample_text
         else Raise (OtherError "OSError" "cannot open");
     PDF_AVAILABLE := true;
     PYPDF2_AVAILABLE := false;
     OCR_AVAILABLE := false;
     pdfplumber_pages := fun _ => Raise (OtherError "PDFSyntaxError" "no pages");
     pypdf2_pages := fun _ => Ok [];
     ocr_pages := fun _ => Ok [];
     pdfplumber_metadata := fun _ => Ok (0%Z, []) |}.

(** A scoring stack that returns the sample record for every document. *)
Definition sample_backend : backend :=
  {| DataFrame := text;
     read_csv_of_text := fun t => Ok t;
     df_len := fun _ => 1%nat;
     score_docs := fun _ _ _ _ _ _ => Ok [sample_scores] |}.

Definition sample_extractors : list extractor :=
  default_extractors sample_world.

Definition no_kwargs : kwargs := ∅.

End Samples.

(* ===================================================================== *)
(** ** Convenience functions and the callers of the demonstration script *)
(* ===================================================================== *)

Module Callers.
Import TextExtraction MoralAnalysis.

(** [extract_text_from_file] of [text_extraction.py]: a fresh manager with
    the default extractors. *)
Definition extract_text_from_file (w : world) (file_path : string)
    (kw : kwargs) : result text :=
  extract_text w (default_extractors w) file_path kw.

(** [analyze_file_moral_framework] of [moral_analysis.py]: a fresh analyzer,
    whose manager has the default extractors. *)
Definition analyze_file_moral_framework (w : world) (b : backend)
    (file_path : string) (p : parameters) (kw : kwargs)
  : result file_analysis :=
  analyze_file w b (default_extractors w) file_path p kw.

(** [analyze_text_moral_framework] of [moral_analysis.py]. *)
Definition analyze_text_moral_framework (b : backend) (t : text)
    (p : parameters) : result (gmap string float) :=
  analyze_text b t p.

(** The dominant foundation as [demo_text_analysis] computes it:
    [{f: scores.get(f + '_p', 0) for f in foundations}] and [max] over its
    items; the default [0] is read as the float zero, with which it compares
    alike. *)
Definition demo_prob_scores (scores : gmap string float) : alist float :=
  map (fun f => (f, default zero (scores !! (f +:+ "_p")))) emfd_foundations.

Definition demo_dominant (scores : gmap string float)
  : result (string * float) :=
  py_max snd (demo_prob_scores scores).

(** [summary['dominant_foundation']['name']], as [demo_file_analysis] and
    [demo_batch_processing] read it from the summary of a record. *)
Definition demo_dominant_name (scores : gmap string float) : result value :=
  summary ← get_moral_summary scores "emfd";
  dominant ← agetitem summary "dominant_foundation";
  match dominant with
  | VDict d => agetitem d "name"
  | _ => Raise (TypeError "object is not subscriptable")
  end.

End Callers.

(* ===================================================================== *)
(** ** More sample data *)
(* ===================================================================== *)

Module MoreSamples.
Import TextExtraction MoralAnalysis.

(** A world without any PDF package, with one text file of blanks only. *)
Definition bare_world : world :=
  {| os_path_exists := fun path => String.eqb path "blank.txt";
     os_stat := fun _ => Ok (3%Z, zero);
     open_read := fun _ _ => Ok [32; 10; 9]%N;
     PDF_AVAILABLE := false;
     PYPDF2_AVAILABLE := false;
     OCR_AVAILABLE := false;
     pdfplumber_pages := fun _ => Ok [];
     pypdf2_pages := fun _ => Ok [];
     ocr_pages := fun _ => Ok [];
     pdfplumber_metadata := fun _ => Ok (0%Z, []) |}.

(** A world in which pdfplumber reads one page of every PDF. *)
Definition pdf_world : world :=
  {| os_path_exists := fun _ => true;
     os_stat := fun _ => Ok (10%Z, zero);
     open_read := fun _ _ => Raise (UnicodeDecodeError "invalid start byte");
     PDF_AVAILABLE := true;
     PYPDF2_AVAILABLE := true;
     OCR_AVAILABLE := false;
     pdfplumber_pages := fun _ => Ok [None; Some [102; 97; 105; 114]%N];
     pypdf2_pages := fun _ => Raise (OtherError "PdfReadError" "broken");
     ocr_pages := fun _ => Ok [];
     pdfplumber_metadata := fun _ => Raise (OtherError "PDFSyntaxError" "bad") |}.

(** An MFD2 record with one column and the ratio. *)
Definition mfd_scores : gmap string float :=
  list_to_map [("care.virtue", lit_0_10); ("moral_nonmoral_ratio", lit_0_5)].

(** A record that has a sentiment but no probability at all. *)
Definition sentiment_only : gmap string float :=
  list_to_map [("care_sent", lit_0_10)].

(** What the analysis of the sample text file returns. *)
Definition sample_analysis : file_analysis :=
  {| file_path := "notes.txt";
     file_metadata := [("file_size", VInt 10); ("file_type", VStr "text");
                       ("modified_time", VFloat zero)];
     extracted_text := Samples.sample_text;
     text_length := 10;
     word_count := 2;
     moral_scores := Samples.sample_scores;
     analysis_parameters := default_parameters |}.

End MoreSamples.

(* ===================================================================== *)
(** ** More specification vocabulary *)
(* ===================================================================== *)

Module SpecExtras.
Import TextExtraction MoralAnalysis Spec.

(** What one source of PDF text contributes: its text when the package is
    installed, the call succeeds and the text is not blank. *)
Definition yields (available : bool) (r : result text) : option text :=
  if available then
    match r with
    | Ok t => if is_blank t then None else Some t
    | Raise _ => None
    end
  else None.

(** The error of [PDFExtractor.extract] when no source yields text. *)
Definition unextractable (file_path : string) : result text :=
  Raise (ValueError ("Unable to extract text from PDF: " +:+ file_path)).

(** The path recorded in an entry of a batch. *)
Definition entry_path (e : batch_entry) : string :=
  match e with
  | Analysed r => file_path r
  | Failed path _ => path
  end.

End SpecExtras.

(* ===================================================================== *)
(** ** The absent scoring module, as the specification words it *)
(* ===================================================================== *)

Module Contracts.
Import MoralAnalysis Scoring Spec.




End Contracts.

(* ===================================================================== *)
(** ** The order of binary64 values *)
(* ===================================================================== *)

Module FloatFacts.
Local Open Scope Z_scope.

Lemma digits2_pos_bounds (m : positive) :
  2 ^ (Zpos (digits2_pos m) - 1) <= Zpos m < 2 ^ Zpos (digits2_pos m).
Proof.
  induction m as [p IH | p IH |]; cbn [digits2_pos].
  - rewrite Pos2Z.inj_succ.
    replace (Z.succ (Zpos (digits2_pos p)) - 1)
      with (Z.succ (Zpos (digits2_pos p) - 1)) by lia.
    rewrite !Z.pow_succ_r by lia. lia.
  - rewrite Pos2Z.inj_succ.
    replace (Z.succ (Zpos (digits2_pos p)) - 1)
      with (Z.succ (Zpos (digits2_pos p) - 1)) by lia.
    rewrite !Z.pow_succ_r by lia. lia.
  - simpl. lia.
Qed.

Lemma bounded_inv (m : positive) (e : Z) :
  bounded prec emax m e = true ->
  - scale <= e <= 971 /\ Zpos (digits2_pos m) <= 53 /\
  (e = - scale \/ Zpos (digits2_pos m) = 53).
Proof.
  unfold bounded, canonical_mantissa, fexp, SpecFloat.emin, prec, emax, scale.
  rewrite andb_true_iff, Z.eqb_eq, Z.leb_le. lia.
Qed.

(** A finite number is non-zero and below the infinities. *)
Lemma finite_ord_bounds (m : positive) (e : Z) :
  bounded prec emax m e = true ->
  0 < Zpos m * 2 ^ (e + scale) < top.
Proof.
  intros Hb. destruct (bounded_inv m e Hb) as (He & Hd & _).
  pose proof (digits2_pos_bounds m) as [_ Hm].
  assert (Hp : 0 < 2 ^ (e + scale))
    by (apply Z.pow_pos_nonneg; unfold scale in *; lia).
  split; [lia |].
  assert (Hm53 : Zpos m < 2 ^ 53).
  { eapply Z.lt_le_trans; [exact Hm |]. apply Z.pow_le_mono_r; lia. }
  assert (He' : 2 ^ (e + scale) <= 2 ^ 2045).
  { apply Z.pow_le_mono_r; unfold scale in *; lia. }
  unfold top. replace 2100 with (53 + 2045 + 2) by lia.
  rewrite (Z.pow_add_r 2 (53 + 2045) 2), (Z.pow_add_r 2 53 2045) by lia.
  assert (Ha : 0 < 2 ^ 2045) by (apply Z.pow_pos_nonneg; lia).
  assert (Hb53 : 0 < 2 ^ 53) by (apply Z.pow_pos_nonneg; lia).
  change (2 ^ 2) with 4.
  apply Z.lt_le_trans with (2 ^ 53 * 2 ^ (e + scale)).
  { apply Z.mul_lt_mono_pos_r; assumption. }
  apply Z.le_trans with (2 ^ 53 * 2 ^ 2045).
  { apply Z.mul_le_mono_nonneg_l; lia. }
  assert (0 < 2 ^ 53 * 2 ^ 2045) by (apply Z.mul_pos_pos; assumption).
  lia.
Qed.

(** Between canonical mantissas the exponent decides. *)
Lemma finite_ord_lt (m1 m2 : positive) (e1 e2 : Z) :
  bounded prec emax m1 e1 = true -> bounded prec emax m2 e2 = true ->
  e1 < e2 ->
  Zpos m1 * 2 ^ (e1 + scale) < Zpos m2 * 2 ^ (e2 + scale).
Proof.
  intros H1 H2 Hlt.
  destruct (bounded_inv m1 e1 H1) as (He1 & Hd1 & _).
  destruct (bounded_inv m2 e2 H2) as (He2 & Hd2 & Hn2).
  destruct Hn2 as [? | Hn2]; [lia |].
  pose proof (digits2_pos_bounds m1) as [_ Hm1].
  pose proof (digits2_pos_bounds m2) as [Hm2 _].
  rewrite Hn2 in Hm2. change (53 - 1) with 52 in Hm2.
  assert (Hm53 : Zpos m1 < 2 ^ 53).
  { eapply Z.lt_le_trans; [exact Hm1 |]. apply Z.pow_le_mono_r; lia. }
  replace (e2 + scale) with ((e2 - e1 - 1) + 1 + (e1 + scale)) by lia.
  rewrite (Z.pow_add_r 2 (e2 - e1 - 1 + 1)), (Z.pow_add_r 2 (e2 - e1 - 1) 1)
    by (unfold scale in *; lia).
  assert (Hp : 0 < 2 ^ (e1 + scale))
    by (apply Z.pow_pos_nonneg; unfold scale in *; lia).
  assert (Hq : 1 <= 2 ^ (e2 - e1 - 1)).
  { change 1 with (2 ^ 0). apply Z.pow_le_mono_r; lia. }
  change (2 ^ 1) with 2.
  change (2 ^ 53) with (2 ^ 52 * 2) in Hm53.
  apply Z.lt_le_trans with (2 ^ 52 * 2 * 2 ^ (e1 + scale)).
  { apply Z.mul_lt_mono_pos_r; assumption. }
  rewrite !Z.mul_assoc.
  apply Z.mul_le_mono_nonneg_r; [lia |].
  apply Z.le_trans with (Zpos m2 * 2); [lia |].
  apply Z.mul_le_mono_nonneg_r; [lia |].
  rewrite <- (Z.mul_1_r (Zpos m2)) at 1.
  apply Z.mul_le_mono_nonneg_l; lia.
Qed.

Ltac by_compare_spec :=
  match goal with
  | |- _ = (?a ?= ?b) =>
      destruct (Z.compare_spec a b); try reflexivity; exfalso; lia
  end.

Lemma scaled_compare (m1 m2 : positive) (k : Z) :
  0 < k -> (Zpos m1 * k ?= Zpos m2 * k) = (m1 ?= m2)%positive.
Proof.
  intros Hk. change (m1 ?= m2)%positive with (Zpos m1 ?= Zpos m2).
  symmetry. apply Zmult_compare_compat_r. lia.
Qed.

(** The IEEE comparison of two numbers is the comparison of their images. *)
Lemma SFcompare_ord (x y : float) :
  is_nan x = false -> is_nan y = false ->
  SFcompare x y = Some (ord x ?= ord y).
Proof.
  destruct x as [x Hx], y as [y Hy]. unfold is_nan, ord. cbn [sf].
  destruct x as [sx | sx | | sx mx ex], y as [sy | sy | | sy my ey];
    cbn [valid_binary SFcompare] in *; intros Nx Ny;
    try discriminate;
    try (pose proof (finite_ord_bounds _ _ Hx) as Bx);
    try (pose proof (finite_ord_bounds _ _ Hy) as By);
    assert (Ht : 0 < top) by (unfold top; apply Z.pow_pos_nonneg; lia).
  - reflexivity.
  - destruct sy; f_equal; by_compare_spec.
  - destruct sy; f_equal; by_compare_spec.
  - destruct sx; f_equal; by_compare_spec.
  - destruct sx, sy; f_equal; by_compare_spec.
  - destruct sx, sy; f_equal; by_compare_spec.
  - destruct sx; f_equal; by_compare_spec.
  - destruct sx, sy; f_equal; by_compare_spec.
  - f_equal. change (Pos.compare_cont Eq mx my) with (mx ?= my)%positive.
    destruct sx, sy; try by_compare_spec.
    + destruct (Z.compare_spec ex ey) as [-> | Hl | Hl].
      * rewrite Z.compare_opp, scaled_compare by lia.
        symmetry. apply Pos.compare_antisym.
      * pose proof (finite_ord_lt _ _ _ _ Hx Hy Hl). by_compare_spec.
      * pose proof (finite_ord_lt _ _ _ _ Hy Hx ltac:(lia)). by_compare_spec.
    + destruct (Z.compare_spec ex ey) as [-> | Hl | Hl].
      * rewrite scaled_compare by lia. reflexivity.
      * pose proof (finite_ord_lt _ _ _ _ Hx Hy Hl). by_compare_spec.
      * pose proof (finite_ord_lt _ _ _ _ Hy Hx ltac:(lia)). by_compare_spec.
Qed.

Lemma SFcompare_nan_l (x y : float) : is_nan x = true -> SFcompare x y = None.
Proof. destruct x as [[] ?]; cbn; intros; try discriminate; reflexivity. Qed.

Lemma SFcompare_nan_r (x y : float) : is_nan y = true -> SFcompare x y = None.
Proof.
  destruct x as [[] ?], y as [[] ?]; cbn; intros; try discriminate; reflexivity.
Qed.

(** The comparison operators, read on the images. *)
Lemma lt_ord (x y : float) :
  lt x y = true <-> is_nan x = false /\ is_nan y = false /\ ord x < ord y.
Proof.
  unfold lt, SFltb.
  destruct (is_nan x) eqn:Nx; [rewrite SFcompare_nan_l by done; intuition discriminate |].
  destruct (is_nan y) eqn:Ny; [rewrite SFcompare_nan_r by done; intuition discriminate |].
  rewrite SFcompare_ord by done.
  destruct (Z.compare_spec (ord x) (ord y)); intuition (try discriminate; try lia).
Qed.

Lemma le_ord (x y : float) :
  le x y = true <-> is_nan x = false /\ is_nan y = false /\ ord x <= ord y.
Proof.
  unfold le, SFleb.
  destruct (is_nan x) eqn:Nx; [rewrite SFcompare_nan_l by done; intuition discriminate |].
  destruct (is_nan y) eqn:Ny; [rewrite SFcompare_nan_r by done; intuition discriminate |].
  rewrite SFcompare_ord by done.
  destruct (Z.compare_spec (ord x) (ord y)); intuition (try discriminate; try lia).
Qed.

Lemma eqb_ord (x y : float) :
  eqb x y = true <-> is_nan x = false /\ is_nan y = false /\ ord x = ord y.
Proof.
  unfold eqb, SFeqb.
  destruct (is_nan x) eqn:Nx; [rewrite SFcompare_nan_l by done; intuition discriminate |].
  destruct (is_nan y) eqn:Ny; [rewrite SFcompare_nan_r by done; intuition discriminate |].
  rewrite SFcompare_ord by done.
  destruct (Z.compare_spec (ord x) (ord y)); intuition (try discriminate; try lia).
Qed.

Lemma gt_ord (x y : float) :
  gt x y = true <-> is_nan x = false /\ is_nan y = false /\ ord y < ord x.
Proof. unfold gt. change (SFltb y x) with (lt y x). rewrite lt_ord. tauto. Qed.

Lemma ge_ord (x y : float) :
  ge x y = true <-> is_nan x = false /\ is_nan y = false /\ ord y <= ord x.
Proof. unfold ge. change (SFleb y x) with (le y x). rewrite le_ord. tauto. Qed.

Lemma lt_false (x y : float) :
  lt x y = false <-> is_nan x = true \/ is_nan y = true \/ ord y <= ord x.
Proof.
  rewrite <- not_true_iff_false, lt_ord.
  destruct (is_nan x), (is_nan y); intuition (try discriminate; try lia).
Qed.

Lemma le_false (x y : float) :
  le x y = false <-> is_nan x = true \/ is_nan y = true \/ ord y < ord x.
Proof.
  rewrite <- not_true_iff_false, le_ord.
  destruct (is_nan x), (is_nan y); intuition (try discriminate; try lia).
Qed.

Lemma gt_false (x y : float) :
  gt x y = false <-> is_nan x = true \/ is_nan y = true \/ ord x <= ord y.
Proof. unfold gt. change (SFltb y x) with (lt y x). rewrite lt_false. tauto. Qed.

Lemma ge_false (x y : float) :
  ge x y = false <-> is_nan x = true \/ is_nan y = true \/ ord x < ord y.
Proof. unfold ge. change (SFleb y x) with (le y x). rewrite le_false. tauto. Qed.

Lemma eqb_false (x y : float) :
  eqb x y = false <-> is_nan x = true \/ is_nan y = true \/ ord x <> ord y.
Proof.
  rewrite <- not_true_iff_false, eqb_ord.
  destruct (is_nan x), (is_nan y); intuition (try discriminate; try lia).
Qed.

(** The literals of the source are the doubles nearest to the decimals they
    spell: the error is at most half a unit in the last place. *)
Lemma literals_nearest :
  (Qle_bool (Qabs (to_Q lit_0_15 - (15 # 100))) (1 # 2 ^ 56) = true /\
   Qle_bool (Qabs (to_Q lit_0_10 - (10 # 100))) (1 # 2 ^ 57) = true /\
   Qle_bool (Qabs (to_Q lit_0_05 - (5 # 100))) (1 # 2 ^ 58) = true /\
   Qle_bool (Qabs (to_Q lit_0_01 - (1 # 100))) (1 # 2 ^ 60) = true /\
   Qeq_bool (to_Q lit_1_0) 1 = true /\
   Qeq_bool (to_Q lit_0_5) (1 # 2) = true /\
   Qle_bool (Qabs (to_Q lit_0_2 - (2 # 10))) (1 # 2 ^ 56) = true /\
   Qle_bool (Qabs (to_Q lit_0_1 - (1 # 10))) (1 # 2 ^ 57) = true)%Q.
Proof. repeat split; vm_compute; reflexivity. Qed.

(** The thresholds of the two tables are increasing. *)
Lemma strength_thresholds_ordered :
  0 < ord lit_0_01 < ord lit_0_05 /\ ord lit_0_05 < ord lit_0_10 < ord lit_0_15.
Proof.
  assert (H : (0 <? ord lit_0_01) && (ord lit_0_01 <? ord lit_0_05)
              && (ord lit_0_05 <? ord lit_0_10)
              && (ord lit_0_10 <? ord lit_0_15) = true)
    by (vm_compute; reflexivity).
  rewrite !andb_true_iff, !Z.ltb_lt in H. tauto.
Qed.

Lemma density_thresholds_ordered :
  0 < ord lit_0_1 < ord lit_0_2 /\ ord lit_0_2 < ord lit_0_5 < ord lit_1_0.
Proof.
  assert (H : (0 <? ord lit_0_1) && (ord lit_0_1 <? ord lit_0_2)
              && (ord lit_0_2 <? ord lit_0_5)
              && (ord lit_0_5 <? ord lit_1_0) = true)
    by (vm_compute; reflexivity).
  rewrite !andb_true_iff, !Z.ltb_lt in H. tauto.
Qed.

End FloatFacts.


(* ===================================================================== *)
(** ** The threshold tables of the summary layer *)
(* ===================================================================== *)

Module Thresholds.
Import MoralAnalysis Spec FloatFacts.
Local Open Scope Z_scope.

(** Turn every float comparison in sight into a fact about images. *)
Ltac float_order :=
  repeat match goal with
    | H : ge _ _ = true |- _ => apply ge_ord in H; destruct H as (? & ? & ?)
    | H : gt _ _ = true |- _ => apply gt_ord in H; destruct H as (? & ? & ?)
    | H : le _ _ = true |- _ => apply le_ord in H; destruct H as (? & ? & ?)
    | H : lt _ _ = true |- _ => apply lt_ord in H; destruct H as (? & ? & ?)
    | H : eqb _ _ = true |- _ => apply eqb_ord in H; destruct H as (? & ? & ?)
    | H : ge _ _ = false |- _ => apply ge_false in H
    | H : gt _ _ = false |- _ => apply gt_false in H
    | H : le _ _ = false |- _ => apply le_false in H
    | H : lt _ _ = false |- _ => apply lt_false in H
    | H : eqb _ _ = false |- _ => apply eqb_false in H
    | H : _ /\ _ |- _ => destruct H
    | |- ge _ _ = true => apply ge_ord
    | |- gt _ _ = true => apply gt_ord
    | |- le _ _ = true => apply le_ord
    | |- lt _ _ = true => apply lt_ord
    | |- eqb _ _ = true => apply eqb_ord
    | |- ge _ _ = false => apply ge_false
    | |- gt _ _ = false => apply gt_false
    | |- le _ _ = false => apply le_false
    | |- lt _ _ = false => apply lt_false
    | |- eqb _ _ = false => apply eqb_false
    end.

Ltac literal_nans :=
  change (is_nan lit_0_15) with false in *;
  change (is_nan lit_0_10) with false in *;
  change (is_nan lit_0_05) with false in *;
  change (is_nan lit_0_01) with false in *;
  change (is_nan lit_1_0) with false in *;
  change (is_nan lit_0_5) with false in *;
  change (is_nan lit_0_2) with false in *;
  change (is_nan lit_0_1) with false in *;
  change (is_nan zero) with false in *;
  change (ord zero) with 0 in *.

Ltac order_solve :=
  float_order; literal_nans;
  repeat match goal with
    | H : _ \/ _ |- _ => destruct H
    | H : false = true |- _ => discriminate H
    | H : true = false |- _ => discriminate H
    | H : ?a = true, H' : ?a = false |- _ => rewrite H in H'; discriminate H'
    | |- _ /\ _ => split
    end;
  match goal with
  | |- @eq string _ _ => reflexivity
  | |- @eq bool _ _ => assumption
  | |- _ => lia
  end.

(** The strength label of a number, band by band. *)
Lemma categorize_cases (s : float) :
  is_nan s = false ->
  (ord lit_0_15 <= ord s /\ _categorize_score s = "very_high"%string) \/
  (ord lit_0_10 <= ord s < ord lit_0_15
   /\ _categorize_score s = "high"%string) \/
  (ord lit_0_05 <= ord s < ord lit_0_10
   /\ _categorize_score s = "moderate"%string) \/
  (ord lit_0_01 <= ord s < ord lit_0_05
   /\ _categorize_score s = "low"%string) \/
  (ord s < ord lit_0_01 /\ _categorize_score s = "very_low"%string).
Proof.
  intros Hn. unfold _categorize_score.
  pose proof strength_thresholds_ordered as Ho.
  destruct (ge s lit_0_15) eqn:E1; [left; order_solve |].
  destruct (ge s lit_0_10) eqn:E2; [right; left; order_solve |].
  destruct (ge s lit_0_05) eqn:E3; [right; right; left; order_solve |].
  destruct (ge s lit_0_01) eqn:E4; [right; right; right; left; order_solve |].
  right; right; right; right. order_solve.
Qed.

Lemma interpret_cases (r : float) :
  is_nan r = false ->
  (ord lit_1_0 <= ord r
   /\ _interpret_moral_density r = "very_high_moral_content"%string) \/
  (ord lit_0_5 <= ord r < ord lit_1_0
   /\ _interpret_moral_density r = "high_moral_content"%string) \/
  (ord lit_0_2 <= ord r < ord lit_0_5
   /\ _interpret_moral_density r = "moderate_moral_content"%string) \/
  (ord lit_0_1 <= ord r < ord lit_0_2
   /\ _interpret_moral_density r = "low_moral_content"%string) \/
  (ord r < ord lit_0_1
   /\ _interpret_moral_density r = "very_low_moral_content"%string).
Proof.
  intros Hn. unfold _interpret_moral_density.
  pose proof density_thresholds_ordered as Ho.
  destruct (ge r lit_1_0) eqn:E1; [left; order_solve |].
  destruct (ge r lit_0_5) eqn:E2; [right; left; order_solve |].
  destruct (ge r lit_0_2) eqn:E3; [right; right; left; order_solve |].
  destruct (ge r lit_0_1) eqn:E4; [right; right; right; left; order_solve |].
  right; right; right; right. order_solve.
Qed.

(** NaN compares false with every threshold and lands in the last band. *)
Lemma categorize_nan : _categorize_score nan = "very_low"%string.
Proof. reflexivity. Qed.

Lemma interpret_nan :
  _interpret_moral_density nan = "very_low_moral_content"%string.
Proof. reflexivity. Qed.

Ltac bool_or_lia :=
  match goal with
  | |- @eq bool _ _ => first [assumption | reflexivity]
  | |- _ => lia
  end.

(** One side of a band: the label decides the comparisons and conversely. *)
Ltac band_iff :=
  split; intros Hx;
  [ first [ discriminate Hx
          | repeat match goal with |- _ /\ _ => split end;
            float_order; literal_nans;
            repeat match goal with |- _ /\ _ => split end; bool_or_lia ]
  | first [ reflexivity
          | exfalso; float_order; literal_nans; lia ] ].

(** C4: [_categorize_score] is total and monotonic and cuts the
    non-negative numbers into five bands exactly at the thresholds of the
    source: [very_high] iff [s >= 0.15], [high] iff [0.10 <= s < 0.15],
    [moderate] iff [0.05 <= s < 0.10], [low] iff [0.01 <= s < 0.05] and
    [very_low] iff [s < 0.01]; 0.05 is [moderate] and 0.10 is [high]. *)
Theorem categorize_score_bands (s s' : float) :
  le zero s = true ->
  (_categorize_score s = "very_high"%string <-> ge s lit_0_15 = true) /\
  (_categorize_score s = "high"%string
   <-> ge s lit_0_10 = true /\ lt s lit_0_15 = true) /\
  (_categorize_score s = "moderate"%string
   <-> ge s lit_0_05 = true /\ lt s lit_0_10 = true) /\
  (_categorize_score s = "low"%string
   <-> ge s lit_0_01 = true /\ lt s lit_0_05 = true) /\
  (_categorize_score s = "very_low"%string <-> lt s lit_0_01 = true) /\
  (le s s' = true ->
   (strength_rank (_categorize_score s)
    <= strength_rank (_categorize_score s'))%nat) /\
  _categorize_score lit_0_05 = "moderate"%string /\
  _categorize_score lit_0_10 = "high"%string.
Proof.
  intros H0. apply le_ord in H0. destruct H0 as (_ & Hn & H0).
  change (ord zero) with 0 in H0.
  pose proof strength_thresholds_ordered as Ho.
  split; [| split; [| split; [| split; [| split; [| split]]]]].
  1-5: destruct (categorize_cases s Hn)
         as [[Hr ->] | [[Hr ->] | [[Hr ->] | [[Hr ->] | [Hr ->]]]]];
       band_iff.
  - intros Hle. apply le_ord in Hle. destruct Hle as (_ & Hn' & Hle).
    destruct (categorize_cases s Hn)
      as [[Hr ->] | [[Hr ->] | [[Hr ->] | [[Hr ->] | [Hr ->]]]]];
    destruct (categorize_cases s' Hn')
      as [[Hr' ->] | [[Hr' ->] | [[Hr' ->] | [[Hr' ->] | [Hr' ->]]]]];
    cbn [strength_rank String.eqb Ascii.eqb Bool.eqb]; lia.
  - split; reflexivity.
Qed.

Lemma categorize_score_bands_witness :
  le zero lit_0_10 = true /\ _categorize_score lit_0_10 = "high"%string.
Proof.
  split; [reflexivity |].
  apply (categorize_score_bands lit_0_10 lit_0_15). reflexivity.
Defined.

(** C8: [_interpret_moral_density] is total and maps a ratio to
    [very_high] iff [r >= 1.0], [high] iff [0.5 <= r < 1.0], [moderate] iff
    [0.2 <= r < 0.5], [low] iff [0.1 <= r < 0.2] and [very_low] iff
    [r < 0.1], exactly at these thresholds. *)
Theorem interpret_moral_density_bands (r : float) :
  is_nan r = false ->
  (_interpret_moral_density r = "very_high_moral_content"%string
   <-> ge r lit_1_0 = true) /\
  (_interpret_moral_density r = "high_moral_content"%string
   <-> ge r lit_0_5 = true /\ lt r lit_1_0 = true) /\
  (_interpret_moral_density r = "moderate_moral_content"%string
   <-> ge r lit_0_2 = true /\ lt r lit_0_5 = true) /\
  (_interpret_moral_density r = "low_moral_content"%string
   <-> ge r lit_0_1 = true /\ lt r lit_0_2 = true) /\
  (_interpret_moral_density r = "very_low_moral_content"%string
   <-> lt r lit_0_1 = true).
Proof.
  intros Hn.
  pose proof density_thresholds_ordered as Ho.
  split; [| split; [| split; [| split]]].
  all: destruct (interpret_cases r Hn)
         as [[Hr ->] | [[Hr ->] | [[Hr ->] | [[Hr ->] | [Hr ->]]]]];
       band_iff.
Qed.

Lemma interpret_moral_density_bands_witness :
  is_nan lit_0_2 = false /\
  _interpret_moral_density lit_0_2 = "moderate_moral_content"%string.
Proof.
  split; [reflexivity |].
  apply (interpret_moral_density_bands lit_0_2); [reflexivity |].
  split; reflexivity.
Defined.

End Thresholds.


(* ===================================================================== *)
(** ** Text analysis and the batch loop *)
(* ===================================================================== *)

Module AnalysisFacts.
Import TextExtraction MoralAnalysis Spec Samples Contracts.

Lemma lstrip_nil_iff (t : text) : lstrip t = [] <-> forallb isspace t = true.
Proof.
  induction t as [| c t IH]; cbn [lstrip forallb]; [tauto |].
  destruct (isspace c); cbn [andb]; [exact IH |].
  split; intros H; discriminate H.
Qed.

Lemma lstrip_head (t : text) (c : N) (r : text) :
  lstrip t = c :: r -> isspace c = false /\ forallb isspace t = false.
Proof.
  induction t as [| d t IH]; cbn [lstrip forallb]; [discriminate |].
  destruct (isspace d) eqn:Hd; cbn [andb].
  - exact IH.
  - intros [= <- <-]. split; [exact Hd | reflexivity].
Qed.

(** [text.strip()] is falsy exactly on the blank texts. *)
Lemma truthy_strip (t : text) : truthy (strip t) = negb (is_blank t).
Proof.
  unfold strip, rstrip, is_blank.
  destruct (lstrip t) as [| c r] eqn:Hl.
  - apply lstrip_nil_iff in Hl. rewrite Hl. reflexivity.
  - apply lstrip_head in Hl as [Hc ->]. cbn [negb].
    destruct (lstrip (rev (c :: r))) as [| d q] eqn:Hr.
    + apply lstrip_nil_iff in Hr.
      cbn [rev] in Hr. rewrite forallb_app in Hr. cbn [forallb] in Hr.
      rewrite Hc, andb_false_r in Hr. discriminate Hr.
    + cbn [rev]. destruct (rev q); reflexivity.
Qed.




(** The loop of [analyze_batch] appends one entry per path. *)
Lemma batch_fold (w : world) (b : backend) (es : list extractor)
    (p : parameters) (kw : kwargs) (paths : list string)
    (acc : list batch_entry) :
  fold_left (batch_step w b es p kw) paths acc =
  (acc ++ map (entry_of w b es p kw) paths)%list.
Proof.
  revert acc. induction paths as [| path paths IH]; intros acc; cbn [fold_left map].
  - rewrite app_nil_r. reflexivity.
  - rewrite IH. unfold batch_step, entry_of.
    destruct (analyze_file w b es path p kw); rewrite <- app_assoc; reflexivity.
Qed.

(** C1: [analyze_batch] returns one entry per path, in the order of the
    paths; the entry of a path whose analysis raises carries the [error]
    field with the message, the entry of any other path is the result of
    [analyze_file]; a failure never stops the loop. *)
Theorem analyze_batch_entries (w : world) (b : backend)
    (es : list extractor) (paths : list string) (p : parameters)
    (kw : kwargs) :
  length (analyze_batch w b es paths p kw) = length paths /\
  forall (i : nat) (path : string),
    paths !! i = Some path ->
    (forall e, analyze_file w b es path p kw = Raise e ->
       analyze_batch w b es paths p kw !! i = Some (Failed path (exn_str e))
       /\ has_error (Failed path (exn_str e)) = true) /\
    (forall r, analyze_file w b es path p kw = Ok r ->
       analyze_batch w b es paths p kw !! i = Some (Analysed r)
       /\ has_error (Analysed r) = false).
Proof.
  unfold analyze_batch. rewrite batch_fold. cbn [app].
  split; [apply length_map |].
  intros i path Hi.
  assert (Hm : map (entry_of w b es p kw) paths !! i
               = Some (entry_of w b es p kw path)).
  { change (map ?f ?l) with (f <$> l). rewrite list_lookup_fmap, Hi. reflexivity. }
  rewrite Hm. unfold entry_of.
  split; intros x Hx; rewrite Hx; split; reflexivity.
Qed.

(** A batch in which the second path does not exist: three entries, the
    second with the error field, the others analysed. *)
Example analyze_batch_mixed :
  map has_error
    (analyze_batch sample_world sample_backend sample_extractors
       ["notes.txt"; "missing.txt"; "notes.txt"] default_parameters no_kwargs)
  = [false; true; false] /\
  analyze_batch sample_world sample_backend sample_extractors
    ["missing.txt"] default_parameters no_kwargs
  = [Failed "missing.txt" "File not found: missing.txt"].
Proof. split; vm_compute; reflexivity. Qed.

End AnalysisFacts.


(* ===================================================================== *)
(** ** Resolution of a path to an extractor *)
(* ===================================================================== *)

Module ExtractionFacts.
Import TextExtraction Spec Samples.

Section Resolution.
Variable w : world.
Variable file_path : string.
Variable kw : kwargs.

(** When no extractor wins, all are queried and the lookup fails. *)
Lemma try_extractors_none (es : list extractor) (i : nat) :
  Forall (fun e => wins file_path kw e = false) es ->
  try_extractors i es file_path kw =
  (calls_from file_path i es, not_found file_path).
Proof.
  intros H. revert i. induction H as [| e es He _ IH]; intros i.
  - reflexivity.
  - cbn [try_extractors calls_from]. unfold calls_on.
    unfold wins in He.
    destruct (supports_file e file_path); cbn [andb] in He.
    + destruct (extract e file_path kw); [discriminate He |].
      rewrite IH. reflexivity.
    + rewrite IH. reflexivity.
Qed.

(** The first winner ends the loop: later extractors are not queried. *)
Lemma try_extractors_first (es : list extractor) (i k : nat) (e : extractor) :
  es !! k = Some e ->
  wins file_path kw e = true ->
  (forall j e', es !! j = Some e' -> (j < k)%nat -> wins file_path kw e' = false) ->
  try_extractors i es file_path kw =
  (calls_from file_path i (take (S k) es), extract e file_path kw).
Proof.
  revert i k. induction es as [| e0 es IH]; intros i k Hk Hw Hbefore.
  - discriminate Hk.
  - destruct k as [| k].
    + injection Hk as ->. cbn [try_extractors take calls_from].
      unfold wins in Hw. unfold calls_on.
      destruct (supports_file e file_path); [| discriminate Hw].
      destruct (extract e file_path kw); [| discriminate Hw].
      reflexivity.
    + cbn [try_extractors take calls_from]. unfold calls_on.
      assert (H0 : wins file_path kw e0 = false).
      { apply (Hbefore 0%nat); [reflexivity | lia]. }
      assert (IH' := IH (S i) k Hk Hw
                       (fun j e' Hj Hlt => Hbefore (S j) e' Hj ltac:(lia))).
      unfold wins in H0.
      destruct (supports_file e0 file_path); cbn [andb] in H0.
      * destruct (extract e0 file_path kw); [discriminate H0 |].
        rewrite IH'. reflexivity.
      * rewrite IH'. reflexivity.
Qed.

(** Either some extractor is the first to win, or none wins. *)
Lemma first_winner_cases (es : list extractor) :
  (exists k e, es !! k = Some e /\ wins file_path kw e = true /\
     forall j e', es !! j = Some e' -> (j < k)%nat ->
                  wins file_path kw e' = false) \/
  Forall (fun e => wins file_path kw e = false) es.
Proof.
  induction es as [| e0 es IH].
  - right. constructor.
  - destruct (wins file_path kw e0) eqn:H0.
    + left. exists 0%nat, e0. repeat split; [exact H0 |]. intros j e' _ Hj. lia.
    + destruct IH as [(k & e & Hk & Hw & Hb) | Hall].
      * left. exists (S k), e. repeat split; [exact Hk | exact Hw |].
        intros [| j] e' Hj Hlt.
        -- injection Hj as <-. exact H0.
        -- apply (Hb j); [exact Hj | lia].
      * right. constructor; assumption.
Qed.

End Resolution.

(** C9: on a path that does not exist, [extract_text] raises
    [FileNotFoundError] and no extractor is consulted, whatever the
    extension of the path and whichever extractors are registered. *)
Theorem extract_text_missing_file (w : world) (es : list extractor)
    (file_path : string) (kw : kwargs) :
  os_path_exists w file_path = false ->
  extract_text_logged w es file_path kw =
    ([], Raise (FileNotFoundError ("File not found: " +:+ file_path))) /\
  extract_text w es file_path kw =
    Raise (FileNotFoundError ("File not found: " +:+ file_path)).
Proof.
  intros H. unfold extract_text, extract_text_logged. rewrite H.
  split; reflexivity.
Qed.

Lemma extract_text_missing_file_witness :
  os_path_exists sample_world "missing.txt" = false /\
  extract_text_logged sample_world sample_extractors "missing.txt" no_kwargs =
    ([], Raise (FileNotFoundError "File not found: missing.txt")).
Proof.
  split; [reflexivity |].
  apply (extract_text_missing_file sample_world sample_extractors
           "missing.txt" no_kwargs).
  reflexivity.
Defined.

(** The fallback loop of the plain-text extractor. *)
Lemma txt_try_all (w : world) (file_path : string) (encs : list string) :
  Forall (fun enc => is_decode_error (open_read w file_path enc) = true) encs ->
  txt_try_encodings w file_path encs = undecodable file_path.
Proof.
  induction 1 as [| enc encs He _ IH]; cbn [txt_try_encodings]; [reflexivity |].
  destruct (open_read w file_path enc) as [t | []]; try discriminate He.
  exact IH.
Qed.

Lemma txt_try_first (w : world) (file_path : string)
    (tried : list string) (enc : string) (rest : list string) :
  Forall (fun enc => is_decode_error (open_read w file_path enc) = true) tried ->
  is_decode_error (open_read w file_path enc) = false ->
  txt_try_encodings w file_path (tried ++ enc :: rest) =
  open_read w file_path enc.
Proof.
  intros Ht He. induction Ht as [| enc' tried He' _ IH]; cbn [app txt_try_encodings].
  - destruct (open_read w file_path enc) as [t | []];
      try reflexivity; discriminate He.
  - destruct (open_read w file_path enc') as [t | []]; try discriminate He'.
    exact IH.
Qed.

(** C7: on an existing path, [extract_text] queries the extractors in
    registration order and returns what the first extractor that supports
    the file and succeeds has extracted; it fails exactly when no extractor
    supports the file or every supporting extractor fails; the plain-text
    extractor, when the requested encoding does not decode the file, tries
    latin-1, cp1252 and iso-8859-1 in this order before it fails. *)
Theorem extract_text_resolution (w : world) (es : list extractor)
    (file_path : string) (kw : kwargs) :
  os_path_exists w file_path = true ->
  (forall k e,
     es !! k = Some e -> wins file_path kw e = true ->
     (forall j e', es !! j = Some e' -> (j < k)%nat ->
                   wins file_path kw e' = false) ->
     extract_text_logged w es file_path kw =
     (calls_from file_path 0 (take (S k) es), extract e file_path kw)) /\
  (forall t,
     extract_text w es file_path kw = Ok t <->
     exists k e,
       es !! k = Some e /\ supports_file e file_path = true /\
       extract e file_path kw = Ok t /\
       forall j e', es !! j = Some e' -> (j < k)%nat ->
                    wins file_path kw e' = false) /\
  (is_ok (extract_text w es file_path kw) = false <->
   (forall e, e ∈ es -> supports_file e file_path = false) \/
   (forall e, e ∈ es -> supports_file e file_path = true ->
              is_ok (extract e file_path kw) = false)) /\
  (is_ok (extract_text w es file_path kw) = false ->
   extract_text_logged w es file_path kw =
   (calls_from file_path 0 es, not_found file_path)) /\
  (forall msg,
     open_read w file_path (default "utf-8" (kw !! "encoding"))
       = Raise (UnicodeDecodeError msg) ->
     fallback_encodings = ["latin-1"; "cp1252"; "iso-8859-1"] /\
     ((forall enc, enc ∈ fallback_encodings ->
           is_decode_error (open_read w file_path enc) = true) ->
      extract (TxtExtractor w) file_path kw = undecodable file_path) /\
     (forall tried enc rest,
        fallback_encodings = (tried ++ enc :: rest)%list ->
        (forall enc', enc' ∈ tried ->
           is_decode_error (open_read w file_path enc') = true) ->
        is_decode_error (open_read w file_path enc) = false ->
        extract (TxtExtractor w) file_path kw = open_read w file_path enc)).
Proof.
  intros Hex.
  assert (Hlog : extract_text_logged w es file_path kw
                 = try_extractors 0 es file_path kw).
  { unfold extract_text_logged. rewrite Hex. reflexivity. }
  assert (Hfirst : forall k e,
     es !! k = Some e -> wins file_path kw e = true ->
     (forall j e', es !! j = Some e' -> (j < k)%nat ->
                   wins file_path kw e' = false) ->
     extract_text_logged w es file_path kw =
     (calls_from file_path 0 (take (S k) es), extract e file_path kw)).
  { intros k e Hk Hw Hb. rewrite Hlog. apply try_extractors_first; assumption. }
  assert (Hnone : Forall (fun e => wins file_path kw e = false) es ->
     extract_text_logged w es file_path kw
     = (calls_from file_path 0 es, not_found file_path)).
  { intros Hall. rewrite Hlog. apply try_extractors_none. exact Hall. }
  assert (Hwins : forall e, wins file_path kw e = true ->
            supports_file e file_path = true /\
            exists t, extract e file_path kw = Ok t).
  { intros e. unfold wins. rewrite andb_true_iff. intros [Hs Ho].
    split; [exact Hs |]. destruct (extract e file_path kw); [eauto | discriminate Ho]. }
  split; [exact Hfirst |].
  split; [| split; [| split]].
  - intros t. unfold extract_text. split.
    + intros Hok.
      destruct (first_winner_cases file_path kw es)
        as [(k & e & Hk & Hw & Hb) | Hall].
      * rewrite (Hfirst k e Hk Hw Hb) in Hok. cbn [snd] in Hok.
        exists k, e. destruct (Hwins e Hw) as [Hs _]. auto.
      * rewrite (Hnone Hall) in Hok. discriminate Hok.
    + intros (k & e & Hk & Hs & He & Hb).
      rewrite (Hfirst k e Hk); [exact He | | exact Hb].
      unfold wins. rewrite Hs, He. reflexivity.
  - unfold extract_text. split.
    + intros Hfail. right. intros e He Hs.
      destruct (first_winner_cases file_path kw es)
        as [(k & e1 & Hk & Hw & Hb) | Hall].
      * rewrite (Hfirst k e1 Hk Hw Hb) in Hfail. cbn [snd] in Hfail.
        destruct (Hwins e1 Hw) as [_ [t Ht]]. rewrite Ht in Hfail.
        discriminate Hfail.
      * rewrite Forall_forall in Hall. specialize (Hall e He).
        unfold wins in Hall. rewrite Hs in Hall. exact Hall.
    + intros Hor.
      assert (Hall : Forall (fun e => wins file_path kw e = false) es).
      { rewrite Forall_forall. intros e He. unfold wins.
        destruct Hor as [Hno | Hfail].
        - rewrite (Hno e He). reflexivity.
        - destruct (supports_file e file_path) eqn:Hs; [| reflexivity].
          rewrite (Hfail e He Hs). reflexivity. }
      rewrite (Hnone Hall). reflexivity.
  - unfold extract_text. intros Hfail.
    destruct (first_winner_cases file_path kw es)
      as [(k & e1 & Hk & Hw & Hb) | Hall].
    + rewrite (Hfirst k e1 Hk Hw Hb) in Hfail. cbn [snd] in Hfail.
      destruct (Hwins e1 Hw) as [_ [t Ht]]. rewrite Ht in Hfail.
      discriminate Hfail.
    + exact (Hnone Hall).
  - intros msg Hprimary.
    assert (Htxt : extract (TxtExtractor w) file_path kw
                   = txt_try_encodings w file_path fallback_encodings).
    { cbn [extract TxtExtractor]. unfold txt_extract. rewrite Hprimary.
      reflexivity. }
    split; [reflexivity |]. split.
    + intros Hall. rewrite Htxt. apply txt_try_all.
      rewrite Forall_forall. exact Hall.
    + intros tried enc rest Hsplit Htried Henc. rewrite Htxt, Hsplit.
      apply txt_try_first; [| exact Henc].
      rewrite Forall_forall. exact Htried.
Qed.

Lemma extract_text_resolution_witness :
  os_path_exists sample_world "notes.txt" = true /\
  extract_text_logged sample_world sample_extractors "notes.txt" no_kwargs =
    ([CallSupports 0; CallExtract 0], Ok sample_text).
Proof.
  split; [reflexivity |].
  destruct (extract_text_resolution sample_world sample_extractors
              "notes.txt" no_kwargs eq_refl) as [Hfirst _].
  apply (Hfirst 0%nat (TxtExtractor sample_world)).
  - reflexivity.
  - reflexivity.
  - intros j e' _ Hj. lia.
Defined.

(** The sample PDF cannot be read by the only installed package, so both
    extractors are asked about it and the lookup fails. *)
Example extract_text_unreadable_pdf :
  extract_text_logged sample_world sample_extractors "scan.pdf" no_kwargs =
    ([CallSupports 0; CallSupports 1; CallExtract 1], not_found "scan.pdf").
Proof. reflexivity. Qed.

End ExtractionFacts.


(* ===================================================================== *)
(** ** Insertion-ordered dicts *)
(* ===================================================================== *)

Module DictFacts.

Section Alist.
Context {V : Type}.
Implicit Types (d : alist V) (k : string) (v : V).

Lemma aget_app d1 d2 k :
  aget (d1 ++ d2)%list k =
  match aget d1 k with Some v => Some v | None => aget d2 k end.
Proof.
  induction d1 as [| [k' v'] d1 IH]; cbn [app aget]; [reflexivity |].
  destruct (String.eqb k' k); [reflexivity | exact IH].
Qed.

Lemma aset_fresh d k v : aget d k = None -> aset d k v = (d ++ [(k, v)])%list.
Proof.
  induction d as [| [k' v'] d IH]; cbn [app aget aset]; [reflexivity |].
  destruct (String.eqb k' k); [discriminate |].
  intros H. rewrite (IH H). reflexivity.
Qed.

Lemma aget_aset_eq d k v : aget (aset d k v) k = Some v.
Proof.
  induction d as [| [k' v'] d IH]; cbn [aget aset].
  - rewrite String.eqb_refl. reflexivity.
  - destruct (String.eqb k' k) eqn:E; cbn [aget]; rewrite E; [reflexivity | exact IH].
Qed.

Lemma aget_aset_ne d k k' v : k <> k' -> aget (aset d k v) k' = aget d k'.
Proof.
  intros Hne. induction d as [| [k0 v0] d IH]; cbn [aget aset].
  - apply String.eqb_neq in Hne. rewrite Hne. reflexivity.
  - destruct (String.eqb k0 k) eqn:E; cbn [aget].
    + apply String.eqb_eq in E. subst k0.
      apply String.eqb_neq in Hne. rewrite Hne. reflexivity.
    + rewrite IH. reflexivity.
Qed.

Lemma aset_aset d k v v' : aset (aset d k v) k v' = aset d k v'.
Proof.
  induction d as [| [k0 v0] d IH]; cbn [aset].
  - rewrite String.eqb_refl. reflexivity.
  - destruct (String.eqb k0 k) eqn:E; cbn [aset]; rewrite E; [reflexivity |].
    rewrite IH. reflexivity.
Qed.

Lemma aset_same d k v : aget d k = Some v -> aset d k v = d.
Proof.
  induction d as [| [k0 v0] d IH]; cbn [aget aset]; [discriminate |].
  destruct (String.eqb k0 k) eqn:E.
  - intros [= ->]. reflexivity.
  - intros H. rewrite (IH H). reflexivity.
Qed.

(** A dict built from a list of keys by a partial function. *)
Lemma aget_omap_keyed (g : string -> option V) (keys : list string) k :
  aget (omap (fun f => pair f <$> g f) keys) k =
  if bool_decide (k ∈ keys) then g k else None.
Proof.
  induction keys as [| f keys IH]; cbn [omap list_omap].
  - reflexivity.
  - destruct (g f) as [v |] eqn:Hg; cbn [fmap option_fmap option_map aget].
    + destruct (String.eqb_spec f k) as [-> | Hne].
      * rewrite bool_decide_eq_true_2 by (left). symmetry. exact Hg.
      * rewrite IH. apply (f_equal (fun (b : bool) => if b then g k else None)).
        apply bool_decide_ext. rewrite elem_of_cons.
        split; [auto | intros [? | ?]; [congruence | assumption]].
    + rewrite IH. destruct (decide (k = f)) as [-> | Hne].
      * rewrite (bool_decide_eq_true_2 (f ∈ f :: keys)) by (left).
        rewrite Hg. destruct (bool_decide (f ∈ keys)); reflexivity.
      * apply (f_equal (fun (b : bool) => if b then g k else None)).
        apply bool_decide_ext. rewrite elem_of_cons.
        split; [auto | intros [? | ?]; [congruence | assumption]].
Qed.

End Alist.

End DictFacts.


(* ===================================================================== *)
(** ** The summary in closed form *)
(* ===================================================================== *)

Module SummaryFacts.
Import MoralAnalysis Spec Samples DictFacts FloatFacts.

Ltac unfold_bind := unfold mbind, result_bind.

Lemma present_scores_cons (scores : gmap string float) (suffix f : string)
    (fs : list string) :
  present_scores scores suffix (f :: fs) =
  match scores !! (f +:+ suffix) with
  | Some v => (f, v) :: present_scores scores suffix fs
  | None => present_scores scores suffix fs
  end.
Proof.
  unfold present_scores. cbn [omap list_omap].
  destruct (scores !! (f +:+ suffix)); reflexivity.
Qed.

(** The first loop collects the scores that are present, in order. *)
Lemma collect_scores_closed (scores : gmap string float) (fs : list string)
    (ps ss : alist float) :
  NoDup fs ->
  (forall f, f ∈ fs -> aget ps f = None /\ aget ss f = None) ->
  collect_scores scores fs ps ss =
  Ok ((ps ++ present_scores scores "_p" fs)%list,
      (ss ++ present_scores scores "_sent" fs)%list).
Proof.
  intros Hnd. revert ps ss.
  induction Hnd as [| f fs Hf Hnd IH]; intros ps ss Hfresh.
  - cbn [collect_scores]. unfold present_scores. cbn [omap list_omap].
    rewrite !app_nil_r. reflexivity.
  - cbn [collect_scores]. rewrite !present_scores_cons.
    destruct (Hfresh f ltac:(left)) as [Hp Hs].
    unfold contains, getitem.
    assert (Hrest : forall (qs : alist float) (v : float) g,
              g ∈ fs -> aget qs g = None -> aget (qs ++ [(f, v)])%list g = None).
    { intros qs v g Hg Hq. rewrite aget_app, Hq. cbn [aget].
      destruct (String.eqb_spec f g) as [-> | _]; [contradiction | reflexivity]. }
    destruct (scores !! (f +:+ "_p")) as [vp |];
      destruct (scores !! (f +:+ "_sent")) as [vs |];
      unfold_bind; rewrite ?(aset_fresh ps f) by exact Hp;
      rewrite ?(aset_fresh ss f) by exact Hs;
      rewrite IH; rewrite <- ?app_assoc; try reflexivity;
      intros g Hg; destruct (Hfresh g ltac:(right; exact Hg)) as [Hgp Hgs];
      split; auto.
Qed.

(** The body of the second loop builds the entry of the foundation. *)
Lemma foundation_summary_closed (ps ss : alist float) (f : string) :
  foundation_summary ps ss f = Ok (foundation_entry ps ss f).
Proof.
  unfold foundation_summary, foundation_entry, acontains, agetitem.
  destruct (aget ps f) as [p |]; destruct (aget ss f) as [s |];
    unfold_bind; reflexivity.
Qed.

Lemma foundation_entries_cons (ps ss : alist float) (f : string)
    (fs : list string) :
  foundation_entries ps ss (f :: fs) =
  if truthy (foundation_entry ps ss f)
  then (f, VDict (foundation_entry ps ss f)) :: foundation_entries ps ss fs
  else foundation_entries ps ss fs.
Proof.
  unfold foundation_entries. cbn [omap list_omap]. unfold keyed_entry at 1.
  destruct (truthy (foundation_entry ps ss f)); reflexivity.
Qed.

Lemma aset_nested_fresh (summary : alist value) (k1 k2 : string)
    (d : alist value) (v : value) :
  aget summary k1 = Some (VDict d) -> aget d k2 = None ->
  aset_nested summary k1 k2 v = Ok (aset summary k1 (VDict (d ++ [(k2, v)])%list)).
Proof.
  intros H1 H2. unfold aset_nested, agetitem. rewrite H1. unfold_bind.
  rewrite (aset_fresh d k2 v H2). reflexivity.
Qed.

(** The second loop fills [moral_foundations] in the order of the list. *)
Lemma summarize_foundations_closed (fs : list string) (ps ss : alist float)
    (summary d : alist value) :
  NoDup fs ->
  aget summary "moral_foundations" = Some (VDict d) ->
  (forall f, f ∈ fs -> aget d f = None) ->
  summarize_foundations fs ps ss summary =
  Ok (aset summary "moral_foundations"
        (VDict (d ++ foundation_entries ps ss fs)%list)).
Proof.
  intros Hnd. revert summary d.
  induction Hnd as [| f fs Hf Hnd IH]; intros summary d Hmf Hfresh.
  - cbn [summarize_foundations]. unfold foundation_entries. cbn [omap list_omap].
    rewrite app_nil_r, (aset_same _ _ _ Hmf). reflexivity.
  - cbn [summarize_foundations]. rewrite foundation_summary_closed.
    unfold_bind. rewrite foundation_entries_cons.
    destruct (truthy (foundation_entry ps ss f)).
    + rewrite (aset_nested_fresh _ _ _ d) by (first [exact Hmf | apply Hfresh; left]).
      rewrite (IH _ (d ++ [(f, VDict (foundation_entry ps ss f))])%list).
      * rewrite aset_aset, <- app_assoc. reflexivity.
      * apply aget_aset_eq.
      * intros g Hg. rewrite aget_app, (Hfresh g) by (right; exact Hg).
        cbn [aget]. destruct (String.eqb_spec f g) as [-> | _];
          [contradiction | reflexivity].
    + apply IH; [exact Hmf |]. intros g Hg. apply Hfresh. right. exact Hg.
Qed.

Lemma mfd_entries_cons (scores : gmap string float) (f : string)
    (fs : list string) :
  mfd_entries scores (f :: fs) =
  match scores !! f with
  | Some s => (f, VDict [("score", VFloat s);
                         ("strength", VStr (_categorize_score s))])
              :: mfd_entries scores fs
  | None => mfd_entries scores fs
  end.
Proof.
  unfold mfd_entries. cbn [omap list_omap]. unfold mfd_entry at 1.
  destruct (scores !! f); reflexivity.
Qed.

(** The loop of the MFD branch does the same for the ten columns. *)
Lemma summarize_mfd_closed (scores : gmap string float) (fs : list string)
    (summary d : alist value) :
  NoDup fs ->
  aget summary "moral_foundations" = Some (VDict d) ->
  (forall f, f ∈ fs -> aget d f = None) ->
  summarize_mfd scores fs summary =
  Ok (aset summary "moral_foundations"
        (VDict (d ++ mfd_entries scores fs)%list)).
Proof.
  intros Hnd. revert summary d.
  induction Hnd as [| f fs Hf Hnd IH]; intros summary d Hmf Hfresh.
  - cbn [summarize_mfd]. unfold mfd_entries. cbn [omap list_omap].
    rewrite app_nil_r, (aset_same _ _ _ Hmf). reflexivity.
  - cbn [summarize_mfd]. rewrite mfd_entries_cons.
    unfold contains, getitem.
    destruct (scores !! f) as [s |]; unfold_bind.
    + rewrite (aset_nested_fresh _ _ _ d) by (first [exact Hmf | apply Hfresh; left]).
      rewrite (IH _ (d ++ [(f, VDict [("score", VFloat s);
                                      ("strength", VStr (_categorize_score s))])])%list).
      * rewrite aset_aset, <- app_assoc. reflexivity.
      * apply aget_aset_eq.
      * intros g Hg. rewrite aget_app, (Hfresh g) by (right; exact Hg).
        cbn [aget]. destruct (String.eqb_spec f g) as [-> | _];
          [contradiction | reflexivity].
    + apply IH; [exact Hmf |]. intros g Hg. apply Hfresh. right. exact Hg.
Qed.

Lemma add_moral_density_closed (scores : gmap string float)
    (summary : alist value) :
  aget summary "moral_density" = None ->
  add_moral_density scores summary = Ok (summary ++ density_entry scores)%list.
Proof.
  intros H. unfold add_moral_density, density_entry, contains, getitem.
  destruct (scores !! "moral_nonmoral_ratio") as [r |]; unfold_bind.
  - rewrite (aset_fresh _ _ _ H). reflexivity.
  - rewrite app_nil_r. reflexivity.
Qed.

Lemma emfd_foundations_NoDup : NoDup emfd_foundations.
Proof. apply (bool_decide_unpack _). vm_compute. exact I. Qed.

Lemma mfd_foundations_NoDup : NoDup mfd_foundations.
Proof. apply (bool_decide_unpack _). vm_compute. exact I. Qed.

(** [get_moral_summary] never raises and returns the closed form. *)
Lemma get_moral_summary_closed (scores : gmap string float)
    (dict_type : string) :
  get_moral_summary scores dict_type = Ok (closed_summary scores dict_type).
Proof.
  unfold get_moral_summary, closed_summary.
  destruct (String.eqb_spec dict_type "emfd") as [-> | Hne].
  - rewrite collect_scores_closed
      by (auto using emfd_foundations_NoDup).
    cbn [app]. unfold_bind. unfold emfd_summary.
    generalize (present_scores scores "_sent" emfd_foundations) as ss.
    generalize (present_scores scores "_p" emfd_foundations) as ps.
    intros ps ss.
    destruct ps as [| x rest].
    + cbn [truthy dominant_entry app].
      rewrite (summarize_foundations_closed _ _ _ _ [])
        by (auto using emfd_foundations_NoDup).
      cbn [app]. rewrite add_moral_density_closed by reflexivity.
      reflexivity.
    + cbn [truthy py_max dominant_entry app]. fold (first_max x rest).
      rewrite (summarize_foundations_closed _ _ _ _ [])
        by (auto using emfd_foundations_NoDup).
      cbn [app]. rewrite add_moral_density_closed by reflexivity.
      reflexivity.
  - destruct (existsb (String.eqb dict_type) ["mfd"; "mfd2"]).
    + rewrite (summarize_mfd_closed _ _ _ [])
        by (auto using mfd_foundations_NoDup).
      unfold_bind. cbn [app].
      rewrite add_moral_density_closed by reflexivity.
      reflexivity.
    + reflexivity.
Qed.

(** C10: for every score record and every [dict_type] string, recognised
    or not, [get_moral_summary] returns without raising, and the summary
    has the key [dictionary_used], equal to [dict_type], and the key
    [moral_foundations], mapped to a dict. *)
Theorem get_moral_summary_total (scores : gmap string float)
    (dict_type : string) :
  exists summary d,
    get_moral_summary scores dict_type = Ok summary /\
    aget summary "dictionary_used" = Some (VStr dict_type) /\
    aget summary "moral_foundations" = Some (VDict d).
Proof.
  rewrite get_moral_summary_closed. unfold closed_summary.
  destruct (String.eqb_spec dict_type "emfd") as [-> | Hne];
    [| destruct (existsb (String.eqb dict_type) ["mfd"; "mfd2"])];
    eexists; eexists; (split; [reflexivity |]); split; reflexivity.
Qed.

(** The entries of [moral_foundations], key by key. *)
Lemma aget_foundation_entries (ps ss : alist float) (fs : list string)
    (f : string) :
  aget (foundation_entries ps ss fs) f =
  if bool_decide (f ∈ fs)
  then (if truthy (foundation_entry ps ss f)
        then Some (VDict (foundation_entry ps ss f)) else None)
  else None.
Proof.
  unfold foundation_entries, keyed_entry.
  apply (aget_omap_keyed
           (fun f => if truthy (foundation_entry ps ss f)
                     then Some (VDict (foundation_entry ps ss f)) else None)).
Qed.

Lemma aget_mfd_entries (scores : gmap string float) (fs : list string)
    (f : string) :
  aget (mfd_entries scores fs) f =
  if bool_decide (f ∈ fs)
  then (fun s => VDict [("score", VFloat s);
                        ("strength", VStr (_categorize_score s))])
         <$> scores !! f
  else None.
Proof.
  unfold mfd_entries, mfd_entry.
  apply (aget_omap_keyed
           (fun f => (fun s => VDict [("score", VFloat s);
                                      ("strength", VStr (_categorize_score s))])
                       <$> scores !! f)).
Qed.

Lemma aget_present_scores (scores : gmap string float) (suffix : string)
    (fs : list string) (f : string) :
  aget (present_scores scores suffix fs) f =
  if bool_decide (f ∈ fs) then scores !! (f +:+ suffix) else None.
Proof.
  unfold present_scores.
  apply (aget_omap_keyed (fun f => scores !! (f +:+ suffix))).
Qed.

(** A probability that is absent leaves no trace in the entry. *)
Lemma emfd_omits_probability (scores : gmap string float) (f : string) :
  scores !! (f +:+ "_p") = None ->
  lookup_path (emfd_summary scores) ["moral_foundations"; f; "probability"]
    = None /\
  lookup_path (emfd_summary scores) ["moral_foundations"; f; "strength"]
    = None.
Proof.
  intros H. unfold emfd_summary. cbn [lookup_path aget String.eqb Ascii.eqb Bool.eqb].
  rewrite aget_foundation_entries.
  destruct (bool_decide (f ∈ emfd_foundations)); [| split; reflexivity].
  unfold foundation_entry.
  rewrite !aget_present_scores.
  destruct (bool_decide (f ∈ emfd_foundations)); rewrite ?H;
    destruct (scores !! (f +:+ "_sent")); split; reflexivity.
Qed.

Lemma emfd_omits_sentiment (scores : gmap string float) (f : string) :
  scores !! (f +:+ "_sent") = None ->
  lookup_path (emfd_summary scores) ["moral_foundations"; f; "sentiment"]
    = None /\
  lookup_path (emfd_summary scores)
    ["moral_foundations"; f; "sentiment_direction"] = None.
Proof.
  intros H. unfold emfd_summary. cbn [lookup_path aget String.eqb Ascii.eqb Bool.eqb].
  rewrite aget_foundation_entries.
  destruct (bool_decide (f ∈ emfd_foundations)); [| split; reflexivity].
  unfold foundation_entry.
  rewrite !aget_present_scores.
  destruct (bool_decide (f ∈ emfd_foundations)); rewrite ?H;
    destruct (scores !! (f +:+ "_p")); split; reflexivity.
Qed.

Lemma emfd_omits_density (scores : gmap string float) :
  scores !! "moral_nonmoral_ratio" = None ->
  lookup_path (emfd_summary scores) ["moral_density"] = None.
Proof.
  intros H. unfold emfd_summary, density_entry. rewrite H, app_nil_r.
  destruct (present_scores scores "_p" emfd_foundations); reflexivity.
Qed.

Lemma mfd_omits_score (scores : gmap string float) (dict_type f : string) :
  scores !! f = None ->
  lookup_path (mfd_summary scores dict_type) ["moral_foundations"; f] = None.
Proof.
  intros H. unfold mfd_summary. cbn [lookup_path aget String.eqb Ascii.eqb Bool.eqb].
  rewrite aget_mfd_entries, H.
  destruct (bool_decide (f ∈ mfd_foundations)); reflexivity.
Qed.

Lemma mfd_omits_density (scores : gmap string float) (dict_type : string) :
  scores !! "moral_nonmoral_ratio" = None ->
  lookup_path (mfd_summary scores dict_type) ["moral_density"] = None.
Proof.
  intros H. unfold mfd_summary, density_entry. rewrite H. reflexivity.
Qed.

(** C2, as the code has it: when a score key that the dictionary type
    calls for is absent from the record, [get_moral_summary] does not
    fail; it returns a summary from which every field derived from that key
    is left out (nothing is put in its place). *)
Theorem missing_key_is_omitted (scores : gmap string float)
    (dict_type key : string) (paths : list (list string)) :
  In (key, paths) (derived_fields dict_type) ->
  scores !! key = None ->
  exists summary,
    get_moral_summary scores dict_type = Ok summary /\
    forall path, In path paths -> lookup_path summary path = None.
Proof.
  intros Hin Hmiss. rewrite get_moral_summary_closed.
  eexists; split; [reflexivity |].
  unfold closed_summary, derived_fields in *.
  destruct (String.eqb dict_type "emfd").
  - apply in_app_or in Hin as [Hin | Hin].
    + apply in_flat_map in Hin as (f & _ & Hin).
      destruct Hin as [[= <- <-] | [[= <- <-] | []]].
      * destruct (emfd_omits_probability scores f Hmiss) as [H1 H2].
        intros path [<- | [<- | []]]; assumption.
      * destruct (emfd_omits_sentiment scores f Hmiss) as [H1 H2].
        intros path [<- | [<- | []]]; assumption.
    + destruct Hin as [[= <- <-] | []].
      intros path [<- | []]. apply emfd_omits_density. exact Hmiss.
  - destruct (existsb (String.eqb dict_type) ["mfd"; "mfd2"]); [| destruct Hin].
    apply in_app_or in Hin as [Hin | Hin].
    + apply in_map_iff in Hin as (f & [= <- <-] & _).
      intros path [<- | []]. apply mfd_omits_score. exact Hmiss.
    + destruct Hin as [[= <- <-] | []].
      intros path [<- | []]. apply mfd_omits_density. exact Hmiss.
Qed.

Lemma missing_key_is_omitted_witness :
  In ("care_sent", [["moral_foundations"; "care"; "sentiment"];
                    ["moral_foundations"; "care"; "sentiment_direction"]])
     (derived_fields "emfd") /\
  partial_scores !! "care_sent" = None /\
  exists summary,
    get_moral_summary partial_scores "emfd" = Ok summary /\
    lookup_path summary ["moral_foundations"; "care"; "sentiment"] = None.
Proof.
  assert (Hin : In ("care_sent",
                    [["moral_foundations"; "care"; "sentiment"];
                     ["moral_foundations"; "care"; "sentiment_direction"]])
                   (derived_fields "emfd")).
  { right. left. reflexivity. }
  assert (Hmiss : partial_scores !! "care_sent" = None).
  { vm_compute. reflexivity. }
  split; [exact Hin |]. split; [exact Hmiss |].
  destruct (missing_key_is_omitted partial_scores "emfd" "care_sent" _ Hin Hmiss)
    as (summary & Hs & Hpaths).
  exists summary. split; [exact Hs |].
  apply Hpaths. left. reflexivity.
Defined.

(** C2, as the claim words it, fails: the empty record lacks every key the
    eMFD calls for, and its summary is returned without any error. *)
Lemma missing_key_does_not_raise :
  ~ (forall (scores : gmap string float) (dict_type key : string)
            (paths : list (list string)),
       In (key, paths) (derived_fields dict_type) ->
       scores !! key = None ->
       is_ok (get_moral_summary scores dict_type) = false).
Proof.
  intros H.
  specialize (H ∅ "emfd" "care_p"
                [["moral_foundations"; "care"; "probability"];
                 ["moral_foundations"; "care"; "strength"]]).
  assert (Hok : get_moral_summary ∅ "emfd"
                = Ok [("dictionary_used", VStr "emfd");
                      ("moral_foundations", VDict [])]).
  { vm_compute. reflexivity. }
  rewrite Hok in H. cbn [is_ok] in H.
  assert (Hf : true = false); [| discriminate Hf].
  apply H; [left; reflexivity | apply lookup_empty].
Qed.

(** *** The dominant foundation *)

Lemma gt_irrefl (x : float) : gt x x = false.
Proof. apply gt_false. destruct (is_nan x); [left; reflexivity | right; right; lia]. Qed.

(** What a new best leaves behind. *)
Lemma gt_displaces (z b y : float) :
  gt z b = false -> gt y b = true -> gt z y = false /\ eqb z y = false.
Proof.
  intros Hz Hy. apply gt_ord in Hy as (Ny & Nb & Hlt).
  apply gt_false in Hz. rewrite Nb in Hz.
  destruct Hz as [Nz | [Hf | Hle]]; [| discriminate Hf |].
  - split; [apply gt_false | apply eqb_false]; left; exact Nz.
  - split; [apply gt_false | apply eqb_false]; right; right; lia.
Qed.

Lemma first_max_invariant (rest : list (string * float)) :
  forall (b : string * float) (l1 l2 : list (string * float)),
    strictly_ahead b l1 -> never_exceeded b l2 ->
    exists l1' l2',
      (l1 ++ b :: l2 ++ rest)%list = (l1' ++ first_max b rest :: l2')%list /\
      strictly_ahead (first_max b rest) l1' /\
      never_exceeded (first_max b rest) l2'.
Proof.
  induction rest as [| y rest IH]; intros b l1 l2 H1 H2.
  - exists l1, l2. rewrite app_nil_r. auto.
  - unfold first_max. cbn [fold_left]. fold (first_max (if gt y.2 b.2 then y else b) rest).
    destruct (gt y.2 b.2) eqn:Hy.
    + destruct (IH y (l1 ++ b :: l2)%list []) as (l1' & l2' & Heq & Ha & Hn).
      * intros z Hz.
        assert (Hzb : gt z.2 b.2 = false).
        { apply elem_of_app in Hz as [Hz | Hz]; [apply (H1 z Hz) |].
          apply elem_of_cons in Hz as [-> | Hz]; [apply gt_irrefl | apply (H2 z Hz)]. }
        exact (gt_displaces _ _ _ Hzb Hy).
      * intros z Hz. inversion Hz.
      * exists l1', l2'. split; [| auto].
        rewrite <- Heq. cbn [app]. rewrite <- app_assoc. reflexivity.
    + destruct (IH b l1 (l2 ++ [y])%list) as (l1' & l2' & Heq & Ha & Hn).
      * exact H1.
      * intros z Hz. apply elem_of_app in Hz as [Hz | Hz]; [apply (H2 z Hz) |].
        apply list_elem_of_singleton in Hz as ->. exact Hy.
      * exists l1', l2'. split; [| auto].
        rewrite <- Heq, <- app_assoc. reflexivity.
Qed.

(** [max] returns the first item that no item exceeds: the items before it
    are neither greater nor equal, the items after it are not greater. *)
Lemma first_max_split (x : string * float) (rest : list (string * float)) :
  exists l1 l2,
    x :: rest = (l1 ++ first_max x rest :: l2)%list /\
    strictly_ahead (first_max x rest) l1 /\
    never_exceeded (first_max x rest) l2.
Proof.
  destruct (first_max_invariant rest x [] []) as (l1 & l2 & Heq & Ha & Hn).
  - intros z Hz. inversion Hz.
  - intros z Hz. inversion Hz.
  - exists l1, l2. auto.
Qed.

Lemma present_scores_all (scores : gmap string float) (suffix : string)
    (fs : list string) :
  (forall f, f ∈ fs -> is_Some (scores !! (f +:+ suffix))) ->
  present_scores scores suffix fs =
  map (fun f => (f, default zero (scores !! (f +:+ suffix)))) fs.
Proof.
  induction fs as [| f fs IH]; intros Hall; [reflexivity |].
  rewrite present_scores_cons. cbn [map].
  destruct (Hall f ltac:(left)) as [v Hv]. rewrite Hv. cbn [default].
  rewrite IH; [reflexivity |]. intros g Hg. apply Hall. right. exact Hg.
Qed.

(** C5: when the record has the five probability fields, the summary
    reports as [dominant_foundation] the name and the probability of a
    foundation that no foundation exceeds, and the first such in the order
    care, fairness, loyalty, authority, sanctity: no foundation listed
    before it has a probability greater than or equal to the reported one
    (on records of numbers, each is strictly smaller, and no foundation
    listed after it is greater). *)
Theorem dominant_foundation_first_highest (scores : gmap string float) :
  (forall f, f ∈ emfd_foundations -> is_Some (scores !! (f +:+ "_p"))) ->
  exists summary name prob before after,
    get_moral_summary scores "emfd" = Ok summary /\
    aget summary "dominant_foundation" =
      Some (VDict [("name", VStr name); ("probability", VFloat prob)]) /\
    emfd_foundations = (before ++ name :: after)%list /\
    scores !! (name +:+ "_p") = Some prob /\
    (forall g v, g ∈ before -> scores !! (g +:+ "_p") = Some v ->
                 gt v prob = false /\ eqb v prob = false) /\
    (forall g v, g ∈ after -> scores !! (g +:+ "_p") = Some v ->
                 gt v prob = false) /\
    ((forall g v, g ∈ emfd_foundations -> scores !! (g +:+ "_p") = Some v ->
                  is_nan v = false) ->
     (forall g v, g ∈ before -> scores !! (g +:+ "_p") = Some v ->
                  lt v prob = true) /\
     (forall g v, g ∈ after -> scores !! (g +:+ "_p") = Some v ->
                  le v prob = true)).
Proof.
  intros Hall.
  pose (item := fun f : string => (f, default zero (scores !! (f +:+ "_p")))).
  assert (Hitem : forall f v, scores !! (f +:+ "_p") = Some v -> item f = (f, v)).
  { intros f v Hv. unfold item. rewrite Hv. reflexivity. }
  assert (Hps : present_scores scores "_p" emfd_foundations
                = item "care" :: map item (tail emfd_foundations)).
  { rewrite (present_scores_all _ _ _ Hall). reflexivity. }
  destruct (first_max_split (item "care") (map item (tail emfd_foundations)))
    as (l1 & l2 & Hsplit & Hahead & Hnever).
  set (r := first_max (item "care") (map item (tail emfd_foundations))) in *.
  change (item "care" :: map item (tail emfd_foundations))
    with (item <$> emfd_foundations) in Hsplit.
  apply fmap_app_inv in Hsplit as (before & rest & -> & Hrest & Hfs).
  symmetry in Hrest.
  apply fmap_cons_inv in Hrest as (name & after & Hr & -> & ->).
  assert (Hname : name ∈ emfd_foundations).
  { rewrite Hfs. apply elem_of_app. right. left. }
  destruct (Hall name Hname) as [prob Hprob].
  assert (Hrp : r = (name, prob)) by (rewrite Hr; apply Hitem; exact Hprob).
  exists (closed_summary scores "emfd"), name, prob, before, after.
  assert (Hbefore : forall g v, g ∈ before -> scores !! (g +:+ "_p") = Some v ->
                      gt v prob = false /\ eqb v prob = false).
  { intros g v Hg Hv.
    assert (Hin : (g, v) ∈ item <$> before).
    { rewrite <- (Hitem g v Hv). apply list_elem_of_fmap_2. exact Hg. }
    specialize (Hahead _ Hin). rewrite Hrp in Hahead. exact Hahead. }
  assert (Hafter : forall g v, g ∈ after -> scores !! (g +:+ "_p") = Some v ->
                      gt v prob = false).
  { intros g v Hg Hv.
    assert (Hin : (g, v) ∈ item <$> after).
    { rewrite <- (Hitem g v Hv). apply list_elem_of_fmap_2. exact Hg. }
    specialize (Hnever _ Hin). rewrite Hrp in Hnever. exact Hnever. }
  split; [apply get_moral_summary_closed |].
  split.
  { unfold closed_summary. cbn [String.eqb Ascii.eqb Bool.eqb].
    unfold emfd_summary. rewrite Hps.
    cbn [dominant_entry app aget String.eqb Ascii.eqb Bool.eqb].
    fold r. rewrite Hrp. reflexivity. }
  split; [exact Hfs |]. split; [exact Hprob |].
  split; [exact Hbefore |]. split; [exact Hafter |].
  intros Hnum.
  assert (Np : is_nan prob = false) by (apply (Hnum name prob Hname Hprob)).
  split.
  - intros g v Hg Hv.
    assert (Nv : is_nan v = false).
    { apply (Hnum g v); [| exact Hv]. rewrite Hfs. apply elem_of_app. left. exact Hg. }
    destruct (Hbefore g v Hg Hv) as [Hgt Heq].
    apply gt_false in Hgt. apply eqb_false in Heq. rewrite Nv, Np in Hgt, Heq.
    apply lt_ord. repeat split; [exact Nv | exact Np |].
    destruct Hgt as [Hf | [Hf | Hle]]; try discriminate Hf.
    destruct Heq as [Hf | [Hf | Hne]]; try discriminate Hf.
    lia.
  - intros g v Hg Hv.
    assert (Nv : is_nan v = false).
    { apply (Hnum g v); [| exact Hv]. rewrite Hfs. apply elem_of_app.
      right. right. exact Hg. }
    specialize (Hafter g v Hg Hv).
    apply gt_false in Hafter. rewrite Nv, Np in Hafter.
    apply le_ord. repeat split; [exact Nv | exact Np |].
    destruct Hafter as [Hf | [Hf | Hle]]; try discriminate Hf.
    exact Hle.
Qed.

Lemma dominant_foundation_first_highest_witness :
  (forall f, f ∈ emfd_foundations -> is_Some (sample_scores !! (f +:+ "_p"))) /\
  exists summary name prob,
    get_moral_summary sample_scores "emfd" = Ok summary /\
    aget summary "dominant_foundation" =
      Some (VDict [("name", VStr name); ("probability", VFloat prob)]) /\
    sample_scores !! (name +:+ "_p") = Some prob.
Proof.
  assert (Hall : forall f, f ∈ emfd_foundations ->
                           is_Some (sample_scores !! (f +:+ "_p"))).
  { intros f Hf. unfold emfd_foundations in Hf.
    repeat (apply elem_of_cons in Hf as [-> | Hf]);
      [| | | | | inversion Hf]; vm_compute; eauto. }
  split; [exact Hall |].
  destruct (dominant_foundation_first_highest sample_scores Hall)
    as (summary & name & prob & before & after & Hs & Hd & _ & Hp & _).
  exists summary, name, prob. auto.
Defined.

(** Fairness and loyalty tie in the sample record; fairness, listed first,
    is reported. *)
Example dominant_foundation_of_sample :
  (summary ← get_moral_summary sample_scores "emfd";
   agetitem summary "dominant_foundation") =
  Ok (VDict [("name", VStr "fairness"); ("probability", VFloat lit_0_15)]).
Proof. vm_compute. reflexivity. Qed.

(** A record whose first probability is NaN: nothing compares greater than
    NaN, so care stays the reported foundation. *)
Example dominant_foundation_with_nan :
  (summary ← get_moral_summary
               (list_to_map [("care_p", nan); ("fairness_p", lit_0_15);
                             ("loyalty_p", lit_0_05); ("authority_p", lit_0_01);
                             ("sanctity_p", lit_0_10)]) "emfd";
   agetitem summary "dominant_foundation") =
  Ok (VDict [("name", VStr "care"); ("probability", VFloat nan)]).
Proof. vm_compute. reflexivity. Qed.

End SummaryFacts.


(* ===================================================================== *)
(** ** The moral/non-moral ratio *)
(* ===================================================================== *)

Module ScoringFacts.
Import Scoring Contracts.

Lemma counts_partition (lex : lexicon) (doc : document) :
  (matched_count lex doc + unmatched_count lex doc = length doc)%nat.
Proof.
  unfold matched_count, unmatched_count.
  induction doc as [| token doc IH]; [reflexivity |].
  cbn [List.filter]. destruct (in_lexicon lex token); cbn [negb length]; lia.
Qed.





End ScoringFacts.


(* ===================================================================== *)
(** ** File extensions *)
(* ===================================================================== *)

Module StringFacts.

Lemma append_nil (b : string) : "" +:+ b = b.
Proof. reflexivity. Qed.

Lemma append_cons (c : ascii) (a b : string) :
  String c a +:+ b = String c (a +:+ b).
Proof. reflexivity. Qed.

Lemma length_append (a b : string) :
  String.length (a +:+ b) = (String.length a + String.length b)%nat.
Proof.
  induction a as [| c a IH]; [reflexivity |].
  rewrite append_cons. simpl. f_equal. exact IH.
Qed.

Lemma append_assoc (a b c : string) : (a +:+ b) +:+ c = a +:+ (b +:+ c).
Proof.
  induction a as [| x a IH]; [reflexivity |].
  rewrite !append_cons. f_equal. exact IH.
Qed.

Lemma substring_all (s : string) : substring 0 (String.length s) s = s.
Proof.
  induction s as [| c s IH]; simpl; [reflexivity | f_equal; exact IH].
Qed.

Lemma substring_none (s : string) : substring 0 0 s = "".
Proof. destruct s; reflexivity. Qed.

(** A string is its first [m] characters followed by the others. *)
Lemma substring_split (m : nat) (s : string) :
  (m <= String.length s)%nat ->
  s = substring 0 m s +:+ substring m (String.length s - m) s /\
  String.length (substring 0 m s) = m.
Proof.
  revert s. induction m as [| m IH]; intros s Hm.
  - rewrite substring_none, Nat.sub_0_r, substring_all. split; reflexivity.
  - destruct s as [| c s]; simpl in Hm; [lia |].
    destruct (IH s ltac:(lia)) as [Heq Hlen].
    simpl. rewrite append_cons, Hlen. split; [| reflexivity].
    f_equal. exact Heq.
Qed.

Lemma substring_skip (a b : string) :
  substring (String.length a) (String.length b) (a +:+ b) = b.
Proof.
  induction a as [| c a IH]; [apply substring_all |].
  rewrite append_cons. simpl. exact IH.
Qed.

(** Two splits of a string with suffixes of one length are the same. *)
Lemma append_inj_suffix (a1 b1 a2 b2 : string) :
  a1 +:+ b1 = a2 +:+ b2 -> String.length b1 = String.length b2 ->
  a1 = a2 /\ b1 = b2.
Proof.
  revert a2. induction a1 as [| c a1 IH]; intros a2 Heq Hlen.
  - destruct a2 as [| d a2]; [auto |].
    apply (f_equal String.length) in Heq.
    rewrite append_nil, append_cons in Heq. simpl in Heq.
    rewrite length_append in Heq. lia.
  - destruct a2 as [| d a2].
    + apply (f_equal String.length) in Heq.
      rewrite append_nil, append_cons in Heq. simpl in Heq.
      rewrite length_append in Heq. lia.
    + rewrite !append_cons in Heq. injection Heq as -> Heq.
      destruct (IH a2 Heq Hlen) as [-> ->]. auto.
Qed.

(** [endswith] holds exactly of the strings that are a prefix followed by
    the suffix. *)
Lemma endswith_iff (s suffix : string) :
  endswith s suffix = true <-> exists pre, s = pre +:+ suffix.
Proof.
  unfold endswith. rewrite andb_true_iff, Nat.leb_le, String.eqb_eq. split.
  - intros [Hle Hsub].
    destruct (substring_split (String.length s - String.length suffix) s
                ltac:(lia)) as [Heq _].
    replace (String.length s - (String.length s - String.length suffix))%nat
      with (String.length suffix) in Heq by lia.
    rewrite Hsub in Heq. eauto.
  - intros [pre ->]. rewrite length_append. split; [lia |].
    replace (String.length pre + String.length suffix - String.length suffix)%nat
      with (String.length pre) by lia.
    apply substring_skip.
Qed.

Lemma lower_append (a b : string) : lower (a +:+ b) = lower a +:+ lower b.
Proof.
  induction a as [| c a IH]; [reflexivity |].
  rewrite append_cons. simpl. rewrite append_cons. f_equal. exact IH.
Qed.

Lemma lower_length (s : string) : String.length (lower s) = String.length s.
Proof.
  induction s as [| c s IH]; simpl;
    [reflexivity | f_equal; exact IH].
Qed.

(** A lower-cased path ends with a suffix exactly when the path ends with
    an extension that is the suffix up to case. *)
Lemma endswith_lower_iff (p suffix : string) :
  endswith (lower p) suffix = true <->
  exists stem ext, p = stem +:+ ext /\ lower ext = suffix.
Proof.
  rewrite endswith_iff. split.
  - intros [pre Hpre].
    assert (Hlen : (String.length suffix <= String.length p)%nat).
    { rewrite <- (lower_length p), Hpre, length_append. lia. }
    destruct (substring_split (String.length p - String.length suffix) p
                ltac:(lia)) as [Heq Hstem].
    set (stem := substring 0 (String.length p - String.length suffix) p) in *.
    set (ext := substring (String.length p - String.length suffix)
                  (String.length p
                   - (String.length p - String.length suffix)) p) in *.
    exists stem, ext. split; [exact Heq |].
    assert (Hext : String.length ext = String.length suffix).
    { apply (f_equal String.length) in Heq.
      rewrite length_append, Hstem in Heq. lia. }
    rewrite Heq, lower_append in Hpre.
    apply append_inj_suffix in Hpre as [_ H]; [exact H |].
    rewrite lower_length. exact Hext.
  - intros (stem & ext & -> & <-). exists (lower stem). apply lower_append.
Qed.

End StringFacts.


(* ===================================================================== *)
(** ** More on the extractors *)
(* ===================================================================== *)

Module ExtractionExtras.
Import TextExtraction MoralAnalysis Spec SpecExtras Samples MoreSamples Callers.
Import StringFacts AnalysisFacts ExtractionFacts.

Lemma txt_supports_iff (file_path : string) :
  txt_supports_file file_path = true <->
  exists stem ext, file_path = stem +:+ ext /\
                   (lower ext = ".txt" \/ lower ext = ".text").
Proof.
  unfold txt_supports_file.
  rewrite orb_true_iff, !endswith_lower_iff. split.
  - intros [(stem & ext & H & He) | (stem & ext & H & He)];
      exists stem, ext; auto.
  - intros (stem & ext & H & [He | He]); [left | right]; eauto.
Qed.

Lemma pdf_supports_iff (file_path : string) :
  pdf_supports_file file_path = true <->
  exists stem ext, file_path = stem +:+ ext /\ lower ext = ".pdf".
Proof. unfold pdf_supports_file. apply endswith_lower_iff. Qed.

(** The built-in extractors go by the extension of the path, whatever its
    case: the plain-text extractor takes exactly the paths that end with
    [.txt] or [.text], the PDF extractor exactly those that end with
    [.pdf]. *)
Theorem supports_file_by_extension (w : world) (file_path : string) :
  (supports_file (TxtExtractor w) file_path = true <->
   exists stem ext, file_path = stem +:+ ext /\
                    (lower ext = ".txt" \/ lower ext = ".text")) /\
  (pdf_supports_file file_path = true <->
   exists stem ext, file_path = stem +:+ ext /\ lower ext = ".pdf").
Proof.
  split.
  - cbn [supports_file TxtExtractor]. apply txt_supports_iff.
  - apply pdf_supports_iff.
Qed.

Lemma txt_excludes_pdf (file_path : string) :
  txt_supports_file file_path = true -> pdf_supports_file file_path = false.
Proof.
  unfold txt_supports_file, pdf_supports_file.
  rewrite orb_true_iff, !endswith_iff. intros Htxt.
  apply not_true_is_false. rewrite endswith_iff. intros [pre2 Hpdf].
  destruct Htxt as [[pre1 Htxt] | [pre1 Htxt]]; rewrite Htxt in Hpdf.
  - apply append_inj_suffix in Hpdf as [_ H]; [discriminate H | reflexivity].
  - change ".text" with ("." +:+ "text") in Hpdf.
    rewrite <- append_assoc in Hpdf.
    apply append_inj_suffix in Hpdf as [_ H]; [discriminate H | reflexivity].
Qed.

(** No path is taken by both built-in extractors. *)
Theorem builtin_extractors_disjoint (file_path : string) :
  txt_supports_file file_path = true -> pdf_supports_file file_path = false.
Proof. intros Htxt. apply txt_excludes_pdf. exact Htxt. Qed.

Lemma builtin_extractors_disjoint_witness :
  txt_supports_file "Notes.TXT" = true /\ pdf_supports_file "Notes.TXT" = false.
Proof.
  split; [reflexivity |].
  apply (builtin_extractors_disjoint "Notes.TXT"). reflexivity.
Defined.

(** The default manager: the plain-text extractor comes first, and the PDF
    extractor is registered exactly when a PDF package is installed; the
    construction never fails. *)
Lemma default_extractors_cases (w : world) :
  (PDF_AVAILABLE w || PYPDF2_AVAILABLE w = true /\
   default_extractors w =
     [TxtExtractor w;
      {| class_name := "PDFExtractor";
         supports_file := pdf_supports_file;
         extract := pdf_extract w (true && OCR_AVAILABLE w);
         get_metadata := pdf_get_metadata w |}]) \/
  (PDF_AVAILABLE w || PYPDF2_AVAILABLE w = false /\
   default_extractors w = [TxtExtractor w]).
Proof.
  unfold default_extractors, register_default_extractors, register_extractor,
    PDFExtractor.
  destruct (PDF_AVAILABLE w), (PYPDF2_AVAILABLE w); cbn [negb andb orb app];
    auto.
Qed.

(** The extensions the default manager lists are [.txt] and [.text], and
    [.pdf] when a PDF package is installed, and each listed extension is
    indeed taken: a path that ends with it is supported by one of the
    registered extractors. *)
Theorem supported_extensions_are_supported (w : world) :
  get_supported_extensions (default_extractors w) =
    ([".txt"; ".text"]
     ++ if PDF_AVAILABLE w || PYPDF2_AVAILABLE w then [".pdf"] else [])%list /\
  forall ext stem,
    ext ∈ get_supported_extensions (default_extractors w) ->
    exists e, e ∈ default_extractors w /\
              supports_file e (stem +:+ ext) = true.
Proof.
  assert (Htxt : forall stem ext, ext = ".txt" \/ ext = ".text" ->
            supports_file (TxtExtractor w) (stem +:+ ext) = true).
  { intros stem ext He.
    cbn [supports_file TxtExtractor].
    apply txt_supports_iff. exists stem, ext.
    split; [reflexivity |]. destruct He as [-> | ->]; auto. }
  destruct (default_extractors_cases w) as [[Hav ->] | [Hav ->]]; rewrite Hav.
  - split; [reflexivity |].
    intros ext stem Hext. cbn in Hext.
    apply elem_of_cons in Hext as [-> | Hext];
      [| apply elem_of_cons in Hext as [-> | Hext]].
    + eexists; split; [left |]. apply Htxt. auto.
    + eexists; split; [left |]. apply Htxt. auto.
    + apply list_elem_of_singleton in Hext as ->.
      eexists; split; [right; left |]. cbn [supports_file].
      apply pdf_supports_iff. exists stem, ".pdf". auto.
  - split; [reflexivity |].
    intros ext stem Hext. cbn in Hext.
    apply elem_of_cons in Hext as [-> | Hext];
      [| apply list_elem_of_singleton in Hext as ->].
    + eexists; split; [left |]. apply Htxt. auto.
    + eexists; split; [left |]. apply Htxt. auto.
Qed.

(** The outcome of the loop does not depend on the position it starts
    from. *)
Lemma try_extractors_index (es : list extractor) (file_path : string)
    (kw : kwargs) (i j : nat) :
  (try_extractors i es file_path kw).2 = (try_extractors j es file_path kw).2.
Proof.
  revert i j. induction es as [| e es IH]; intros i j; [reflexivity |].
  cbn [try_extractors].
  destruct (supports_file e file_path).
  - destruct (extract e file_path kw); [reflexivity |].
    specialize (IH (S i) (S j)).
    destruct (try_extractors (S i) es file_path kw),
             (try_extractors (S j) es file_path kw). exact IH.
  - specialize (IH (S i) (S j)).
    destruct (try_extractors (S i) es file_path kw),
             (try_extractors (S j) es file_path kw). exact IH.
Qed.

Lemma try_extractors_app (es es' : list extractor) (file_path : string)
    (kw : kwargs) (i : nat) :
  (try_extractors i (es ++ es') file_path kw).2 =
  if is_ok (try_extractors i es file_path kw).2
  then (try_extractors i es file_path kw).2
  else (try_extractors i es' file_path kw).2.
Proof.
  revert i. induction es as [| e es IH]; intros i; [reflexivity |].
  cbn [app try_extractors].
  destruct (supports_file e file_path).
  - destruct (extract e file_path kw); [reflexivity |].
    specialize (IH (S i)).
    rewrite (try_extractors_index es' _ _ i (S i)).
    destruct (try_extractors (S i) (es ++ es') file_path kw),
             (try_extractors (S i) es file_path kw). exact IH.
  - specialize (IH (S i)).
    rewrite (try_extractors_index es' _ _ i (S i)).
    destruct (try_extractors (S i) (es ++ es') file_path kw),
             (try_extractors (S i) es file_path kw). exact IH.
Qed.

(** Extractors registered later are fallbacks only: the extraction over two
    lists of extractors in a row is the extraction over the first list when
    this succeeds, and the extraction over the second list otherwise; so an
    extractor registered after the others never changes a success. *)
Theorem extract_text_app (w : world) (es es' : list extractor)
    (file_path : string) (kw : kwargs) :
  extract_text w (es ++ es') file_path kw =
    (if is_ok (extract_text w es file_path kw)
     then extract_text w es file_path kw
     else extract_text w es' file_path kw) /\
  forall e t,
    extract_text w es file_path kw = Ok t ->
    extract_text w (register_extractor es e) file_path kw = Ok t.
Proof.
  assert (H : extract_text w (es ++ es') file_path kw =
    (if is_ok (extract_text w es file_path kw)
     then extract_text w es file_path kw
     else extract_text w es' file_path kw)).
  { unfold extract_text, extract_text_logged.
    destruct (os_path_exists w file_path); cbn [negb]; [| reflexivity].
    apply try_extractors_app. }
  split; [exact H |].
  intros e t Hok. unfold register_extractor.
  assert (H1 : extract_text w (es ++ [e]) file_path kw =
    (if is_ok (extract_text w es file_path kw)
     then extract_text w es file_path kw
     else extract_text w [e] file_path kw)).
  { unfold extract_text, extract_text_logged.
    destruct (os_path_exists w file_path); cbn [negb]; [| reflexivity].
    apply try_extractors_app. }
  rewrite H1, Hok. reflexivity.
Qed.

(** With the default manager, a path with a text extension goes to the
    plain-text extractor alone: its text is returned when it succeeds, and
    when it fails the error is the manager's "No suitable extractor found",
    not the error of the extractor. *)
Theorem extract_text_from_text_file (w : world) (file_path : string)
    (kw : kwargs) :
  os_path_exists w file_path = true ->
  txt_supports_file file_path = true ->
  extract_text_from_file w file_path kw =
  match extract (TxtExtractor w) file_path kw with
  | Ok t => Ok t
  | Raise _ => not_found file_path
  end.
Proof.
  intros Hex Htxt. unfold extract_text_from_file, extract_text,
    extract_text_logged. rewrite Hex. cbn [negb].
  pose proof (txt_excludes_pdf file_path Htxt) as Hpdf.
  destruct (default_extractors_cases w) as [[_ ->] | [_ ->]];
    cbn [try_extractors supports_file TxtExtractor extract];
    rewrite Htxt; destruct (txt_extract w file_path kw);
    try reflexivity; rewrite ?Hpdf; reflexivity.
Qed.

Lemma extract_text_from_text_file_witness :
  os_path_exists bare_world "blank.txt" = true /\
  txt_supports_file "blank.txt" = true /\
  extract_text_from_file bare_world "blank.txt" no_kwargs = Ok [32; 10; 9]%N.
Proof.
  split; [reflexivity |]. split; [reflexivity |].
  rewrite (extract_text_from_text_file bare_world "blank.txt" no_kwargs
             eq_refl eq_refl).
  reflexivity.
Defined.

(** The default manager has no metadata for a path that does not exist:
    the lookup returns the empty dict and does not touch the file. *)
Theorem get_file_metadata_missing_file (w : world) (file_path : string) :
  os_path_exists w file_path = false ->
  get_file_metadata (default_extractors w) file_path = Ok [].
Proof.
  intros Hex.
  destruct (default_extractors_cases w) as [[_ ->] | [_ ->]];
    cbn [get_file_metadata supports_file TxtExtractor get_metadata];
    unfold txt_get_metadata, pdf_get_metadata; rewrite Hex; cbn [negb];
    destruct (txt_supports_file file_path); try reflexivity;
    destruct (pdf_supports_file file_path); reflexivity.
Qed.

Lemma get_file_metadata_missing_file_witness :
  os_path_exists sample_world "missing.pdf" = false /\
  get_file_metadata (default_extractors sample_world) "missing.pdf" = Ok [].
Proof.
  split; [reflexivity |].
  apply (get_file_metadata_missing_file sample_world "missing.pdf").
  reflexivity.
Defined.

Lemma blank_strip (t : text) : truthy (strip t) = negb (is_blank t).
Proof. apply truthy_strip. Qed.

(** One attempt either yields text, which is returned at once, or leaves a
    blank text behind. *)
Lemma pdf_attempt_cases (available : bool) (f : string -> result text)
    (file_path : string) (current : text) :
  is_blank current = true ->
  (exists t, yields available (f file_path) = Some t /\
             pdf_attempt available f file_path current = inl t) \/
  (exists kept, yields available (f file_path) = None /\
                pdf_attempt available f file_path current = inr kept /\
                is_blank kept = true).
Proof.
  intros B. unfold yields, pdf_attempt.
  destruct available; [| right; eauto].
  destruct (f file_path) as [t | e]; [| right; eauto].
  rewrite (blank_strip t). destruct (is_blank t) eqn:Bt; cbn [negb];
    [right | left]; eauto.
Qed.

Lemma pdf_extract_closed (w : world) (use_ocr : bool)
    (file_path : string) (kw : kwargs) :
  pdf_extract w use_ocr file_path kw =
    match yields (PDF_AVAILABLE w) (_extract_with_pdfplumber w file_path) with
    | Some t => Ok t
    | None =>
        match yields (PYPDF2_AVAILABLE w) (_extract_with_pypdf2 w file_path) with
        | Some t => Ok t
        | None =>
            match yields use_ocr (_extract_with_ocr w file_path) with
            | Some t => Ok t
            | None => unextractable file_path
            end
        end
    end.
Proof.
  unfold pdf_extract.
  destruct (pdf_attempt_cases (PDF_AVAILABLE w) (_extract_with_pdfplumber w)
              file_path [] eq_refl)
    as [(t1 & -> & ->) | (c1 & -> & -> & B1)]; [reflexivity |].
  destruct (pdf_attempt_cases (PYPDF2_AVAILABLE w) (_extract_with_pypdf2 w)
              file_path c1 B1)
    as [(t2 & -> & ->) | (c2 & -> & -> & B2)]; [reflexivity |].
  rewrite (blank_strip c2), B2. cbn [negb]. rewrite andb_true_r.
  unfold yields, unextractable. destruct use_ocr.
  - destruct (_extract_with_ocr w file_path) as [t3 | e3].
    + rewrite (blank_strip t3). destruct (is_blank t3); reflexivity.
    + rewrite (blank_strip c2), B2. reflexivity.
  - rewrite (blank_strip c2), B2. reflexivity.
Qed.

Lemma yields_not_blank (available : bool) (r : result text) (t : text) :
  yields available r = Some t -> is_blank t = false.
Proof.
  unfold yields. destruct available; [| discriminate].
  destruct r as [u |]; [| discriminate].
  destruct (is_blank u) eqn:B; [discriminate |]. intros [= <-]. exact B.
Qed.

(** The PDF extractor returns the text of the first source, in the order
    pdfplumber, PyPDF2, OCR (when enabled), that is installed, succeeds and
    yields text that is not blank; so it never returns blank text, and when
    no source yields text it raises "Unable to extract text from PDF",
    whatever the sources have raised. *)
Theorem pdf_extract_sources (w : world) (use_ocr : bool)
    (file_path : string) (kw : kwargs) :
  pdf_extract w use_ocr file_path kw =
    match yields (PDF_AVAILABLE w) (_extract_with_pdfplumber w file_path) with
    | Some t => Ok t
    | None =>
        match yields (PYPDF2_AVAILABLE w) (_extract_with_pypdf2 w file_path) with
        | Some t => Ok t
        | None =>
            match yields use_ocr (_extract_with_ocr w file_path) with
            | Some t => Ok t
            | None => unextractable file_path
            end
        end
    end /\
  (forall t, pdf_extract w use_ocr file_path kw = Ok t -> is_blank t = false) /\
  (is_ok (pdf_extract w use_ocr file_path kw) = false ->
   pdf_extract w use_ocr file_path kw = unextractable file_path).
Proof.
  split; [apply pdf_extract_closed |].
  rewrite pdf_extract_closed. split.
  - intros t.
    destruct (yields (PDF_AVAILABLE w) _) eqn:Y1;
      [intros [= <-]; exact (yields_not_blank _ _ _ Y1) |].
    destruct (yields (PYPDF2_AVAILABLE w) _) eqn:Y2;
      [intros [= <-]; exact (yields_not_blank _ _ _ Y2) |].
    destruct (yields use_ocr _) eqn:Y3;
      [intros [= <-]; exact (yields_not_blank _ _ _ Y3) | discriminate].
  - destruct (yields (PDF_AVAILABLE w) _); [discriminate |].
    destruct (yields (PYPDF2_AVAILABLE w) _); [discriminate |].
    destruct (yields use_ocr _); [discriminate | reflexivity].
Qed.

(** [pdf_world] has a PDF of two pages, the first without text. *)
Example pdf_extract_of_sample :
  pdf_extract pdf_world false "scan.pdf" no_kwargs = Ok [102; 97; 105; 114]%N.
Proof. reflexivity. Qed.

(** [PDFExtractor()] fails exactly when neither PDF package is installed;
    and an extractor built where the OCR packages are missing never runs the
    OCR, even when asked to fall back on it: its outcome is decided by
    pdfplumber and PyPDF2 alone. *)
Theorem PDFExtractor_without_ocr (w : world) (use_ocr_fallback : bool) :
  (is_ok (PDFExtractor w use_ocr_fallback) = false <->
   PDF_AVAILABLE w = false /\ PYPDF2_AVAILABLE w = false) /\
  (OCR_AVAILABLE w = false ->
   forall e file_path kw,
     PDFExtractor w use_ocr_fallback = Ok e ->
     extract e file_path kw =
     match yields (PDF_AVAILABLE w) (_extract_with_pdfplumber w file_path) with
     | Some t => Ok t
     | None =>
         match yields (PYPDF2_AVAILABLE w) (_extract_with_pypdf2 w file_path) with
         | Some t => Ok t
         | None => unextractable file_path
         end
     end).
Proof.
  unfold PDFExtractor. split.
  - destruct (PDF_AVAILABLE w), (PYPDF2_AVAILABLE w); cbn [negb andb is_ok];
      intuition discriminate.
  - intros Hocr e file_path kw.
    destruct (negb (PDF_AVAILABLE w) && negb (PYPDF2_AVAILABLE w));
      [discriminate |].
    intros [= <-]. cbn [extract]. rewrite Hocr, andb_false_r.
    rewrite pdf_extract_closed. reflexivity.
Qed.

Lemma txt_try_encodings_no_decode_error (w : world) (file_path : string)
    (encs : list string) :
  is_decode_error (txt_try_encodings w file_path encs) = false.
Proof.
  induction encs as [| enc encs IH]; cbn [txt_try_encodings]; [reflexivity |].
  destruct (open_read w file_path enc) as [t | []]; try reflexivity.
  exact IH.
Qed.

(** The plain-text extractor uses the requested encoding first and returns
    its text when it decodes; an error that is not a decoding error (the
    file cannot be opened, say) is raised as it is, without any fallback;
    and a [UnicodeDecodeError] never leaves the extractor. *)
Theorem txt_extract_errors (w : world) (file_path : string) (kw : kwargs) :
  is_decode_error (extract (TxtExtractor w) file_path kw) = false /\
  (forall t,
     open_read w file_path (default "utf-8" (kw !! "encoding")) = Ok t ->
     extract (TxtExtractor w) file_path kw = Ok t) /\
  (forall e,
     open_read w file_path (default "utf-8" (kw !! "encoding")) = Raise e ->
     is_decode_error (@Raise text e) = false ->
     extract (TxtExtractor w) file_path kw = Raise e).
Proof.
  cbn [extract TxtExtractor]. unfold txt_extract.
  split; [| split].
  - destruct (open_read w file_path (default "utf-8" (kw !! "encoding")))
      as [t | []]; try reflexivity.
    apply txt_try_encodings_no_decode_error.
  - intros t ->. reflexivity.
  - intros e -> He. destruct e; try reflexivity. discriminate He.
Qed.

(** The metadata of a PDF that exists always carry the size, the type and
    the modification time of the file; the page count and the document
    metadata are added exactly when pdfplumber is installed and reads the
    file, and its failure is not an error. *)
Theorem pdf_get_metadata_basic (w : world) (file_path : string)
    (st : Z * float) :
  os_path_exists w file_path = true ->
  os_stat w file_path = Ok st ->
  exists d,
    pdf_get_metadata w file_path = Ok d /\
    aget d "file_size" = Some (VInt st.1) /\
    aget d "file_type" = Some (VStr "pdf") /\
    aget d "modified_time" = Some (VFloat st.2) /\
    (acontains d "page_count" = true <->
     PDF_AVAILABLE w = true /\ is_ok (pdfplumber_metadata w file_path) = true) /\
    (acontains d "pdf_metadata" = true <-> acontains d "page_count" = true).
Proof.
  intros Hex Hst. unfold pdf_get_metadata, mbind, result_bind.
  rewrite Hex, Hst. cbn [negb].
  destruct (PDF_AVAILABLE w);
    [destruct (pdfplumber_metadata w file_path) as [pm | e] |];
    eexists; (split; [reflexivity |]);
    repeat split; try reflexivity; try discriminate;
    intros [H1 H2]; discriminate.
Qed.

Lemma pdf_get_metadata_basic_witness :
  os_path_exists pdf_world "scan.pdf" = true /\
  os_stat pdf_world "scan.pdf" = Ok (10%Z, zero) /\
  exists d,
    pdf_get_metadata pdf_world "scan.pdf" = Ok d /\
    aget d "file_type" = Some (VStr "pdf") /\
    acontains d "page_count" = false.
Proof.
  split; [reflexivity |]. split; [reflexivity |].
  destruct (pdf_get_metadata_basic pdf_world "scan.pdf" (10%Z, zero)
              eq_refl eq_refl) as (d & Hd & _ & Ht & _ & Hp & _).
  exists d. split; [exact Hd |]. split; [exact Ht |].
  destruct (acontains d "page_count"); [| reflexivity].
  destruct (proj1 Hp eq_refl) as [_ H]. discriminate H.
Defined.

End ExtractionExtras.


(* ===================================================================== *)
(** ** More on the summary layer *)
(* ===================================================================== *)

Module SummaryExtras.
Import MoralAnalysis Spec Samples MoreSamples Callers.
Import DictFacts FloatFacts Thresholds SummaryFacts.

(** The summary reports the eMFD scores of a record as they are: under
    [moral_foundations], each foundation carries exactly the probability and
    the sentiment the record has for it, with the labels computed from
    these very numbers, and nothing for a score the record lacks. *)
Theorem emfd_summary_reports_scores (scores : gmap string float)
    (f : string) :
  f ∈ emfd_foundations ->
  exists summary,
    get_moral_summary scores "emfd" = Ok summary /\
    lookup_path summary ["moral_foundations"; f; "probability"]
      = VFloat <$> scores !! (f +:+ "_p") /\
    lookup_path summary ["moral_foundations"; f; "strength"]
      = (fun p => VStr (_categorize_score p)) <$> scores !! (f +:+ "_p") /\
    lookup_path summary ["moral_foundations"; f; "sentiment"]
      = VFloat <$> scores !! (f +:+ "_sent") /\
    lookup_path summary ["moral_foundations"; f; "sentiment_direction"]
      = (fun s => VStr (sentiment_direction s)) <$> scores !! (f +:+ "_sent").
Proof.
  intros Hf. rewrite get_moral_summary_closed.
  eexists; split; [reflexivity |].
  unfold closed_summary. cbn [String.eqb Ascii.eqb Bool.eqb].
  unfold emfd_summary.
  cbn [lookup_path aget String.eqb Ascii.eqb Bool.eqb].
  rewrite aget_foundation_entries.
  rewrite (bool_decide_eq_true_2 _ Hf).
  unfold foundation_entry. rewrite !aget_present_scores.
  rewrite (bool_decide_eq_true_2 _ Hf).
  destruct (scores !! (f +:+ "_p")) as [p |];
    destruct (scores !! (f +:+ "_sent")) as [s |];
    repeat split; reflexivity.
Qed.

Lemma emfd_summary_reports_scores_witness :
  "fairness" ∈ emfd_foundations /\
  exists summary,
    get_moral_summary sample_scores "emfd" = Ok summary /\
    lookup_path summary ["moral_foundations"; "fairness"; "strength"]
      = Some (VStr "very_high").
Proof.
  assert (Hf : "fairness" ∈ emfd_foundations) by (right; left).
  split; [exact Hf |].
  destruct (emfd_summary_reports_scores sample_scores "fairness" Hf)
    as (summary & Hs & _ & Hstrength & _).
  exists summary. split; [exact Hs |].
  rewrite Hstrength. vm_compute. reflexivity.
Defined.

(** The same for the MFD and MFD2: each of the ten columns that the record
    has is reported with its score and its strength, the others are left
    out. *)
Theorem mfd_summary_reports_scores (scores : gmap string float)
    (dict_type f : string) :
  dict_type = "mfd" \/ dict_type = "mfd2" ->
  f ∈ mfd_foundations ->
  exists summary,
    get_moral_summary scores dict_type = Ok summary /\
    lookup_path summary ["moral_foundations"; f; "score"]
      = VFloat <$> scores !! f /\
    lookup_path summary ["moral_foundations"; f; "strength"]
      = (fun s => VStr (_categorize_score s)) <$> scores !! f /\
    aget summary "dominant_foundation" = None.
Proof.
  intros Hdt Hf. rewrite get_moral_summary_closed.
  eexists; split; [reflexivity |].
  assert (Hcs : closed_summary scores dict_type = mfd_summary scores dict_type).
  { unfold closed_summary. destruct Hdt as [-> | ->]; reflexivity. }
  rewrite Hcs. unfold mfd_summary.
  cbn [lookup_path aget String.eqb Ascii.eqb Bool.eqb].
  rewrite aget_mfd_entries, (bool_decide_eq_true_2 _ Hf).
  unfold density_entry.
  destruct (scores !! f) as [s |];
    destruct (scores !! "moral_nonmoral_ratio"); repeat split; reflexivity.
Qed.

Lemma mfd_summary_reports_scores_witness :
  ("mfd2" = "mfd" \/ "mfd2" = "mfd2") /\
  "care.virtue" ∈ mfd_foundations /\
  exists summary,
    get_moral_summary mfd_scores "mfd2" = Ok summary /\
    lookup_path summary ["moral_foundations"; "care.virtue"; "strength"]
      = Some (VStr "high").
Proof.
  assert (Hf : "care.virtue" ∈ mfd_foundations) by left.
  split; [right; reflexivity |]. split; [exact Hf |].
  destruct (mfd_summary_reports_scores mfd_scores "mfd2" "care.virtue"
              (or_intror eq_refl) Hf) as (summary & Hs & _ & Hstrength & _).
  exists summary. split; [exact Hs |].
  rewrite Hstrength. vm_compute. reflexivity.
Defined.

Lemma elem_of_present_scores (scores : gmap string float) (suffix : string)
    (fs : list string) (g : string) (v : float) :
  (g, v) ∈ present_scores scores suffix fs <->
  g ∈ fs /\ scores !! (g +:+ suffix) = Some v.
Proof.
  unfold present_scores. rewrite list_elem_of_omap. split.
  - intros (f & Hf & Hv).
    destruct (scores !! (f +:+ suffix)) as [u |] eqn:Hu; [| discriminate Hv].
    injection Hv as <- <-. auto.
  - intros [Hg Hv]. exists g. rewrite Hv. auto.
Qed.

Lemma present_scores_nil (scores : gmap string float) (suffix : string)
    (fs : list string) :
  present_scores scores suffix fs = [] <->
  forall f, f ∈ fs -> scores !! (f +:+ suffix) = None.
Proof.
  split.
  - intros Hnil f Hf. destruct (scores !! (f +:+ suffix)) as [v |] eqn:Hv;
      [| reflexivity].
    assert (Hin : (f, v) ∈ present_scores scores suffix fs)
      by (apply elem_of_present_scores; auto).
    rewrite Hnil in Hin. inversion Hin.
  - intros Hall. destruct (present_scores scores suffix fs) as [| [g v] l] eqn:E;
      [reflexivity |].
    assert (Hin : (g, v) ∈ present_scores scores suffix fs)
      by (rewrite E; left).
    apply elem_of_present_scores in Hin as [Hg Hv].
    rewrite (Hall g Hg) in Hv. discriminate Hv.
Qed.

Lemma emfd_dominant_key (scores : gmap string float) :
  acontains (emfd_summary scores) "dominant_foundation" = true <->
  exists f, f ∈ emfd_foundations /\ is_Some (scores !! (f +:+ "_p")).
Proof.
  unfold emfd_summary, acontains.
  destruct (present_scores scores "_p" emfd_foundations)
    as [| [g v] rest] eqn:Hps;
    cbn [dominant_entry app aget String.eqb Ascii.eqb Bool.eqb].
  - pose proof (proj1 (present_scores_nil _ _ _) Hps) as Hnone.
    unfold density_entry.
    destruct (scores !! "moral_nonmoral_ratio") as [r |];
      cbn [aget String.eqb Ascii.eqb Bool.eqb];
      (split; [discriminate |]);
      intros (f & Hf & [u Hu]); rewrite (Hnone f Hf) in Hu; discriminate Hu.
  - split; [intros _ | reflexivity].
    assert (Hin : (g, v) ∈ present_scores scores "_p" emfd_foundations)
      by (rewrite Hps; left).
    apply elem_of_present_scores in Hin as [Hg Hv].
    exists g. rewrite Hv. eauto.
Qed.

Lemma emfd_density_key (scores : gmap string float) :
  aget (emfd_summary scores) "moral_density" =
  (fun r => VDict [("ratio", VFloat r);
                   ("interpretation", VStr (_interpret_moral_density r))])
    <$> scores !! "moral_nonmoral_ratio".
Proof.
  unfold emfd_summary, density_entry.
  destruct (present_scores scores "_p" emfd_foundations);
    destruct (scores !! "moral_nonmoral_ratio"); reflexivity.
Qed.

Lemma mfd_density_key (scores : gmap string float) (dict_type : string) :
  aget (mfd_summary scores dict_type) "moral_density" =
  (fun r => VDict [("ratio", VFloat r);
                   ("interpretation", VStr (_interpret_moral_density r))])
    <$> scores !! "moral_nonmoral_ratio".
Proof.
  unfold mfd_summary, density_entry.
  destruct (scores !! "moral_nonmoral_ratio"); reflexivity.
Qed.

(** What follows from the value under [moral_density]. *)
Lemma density_key_facts (scores : gmap string float) (summary : alist value) :
  aget summary "moral_density" =
  (fun r => VDict [("ratio", VFloat r);
                   ("interpretation", VStr (_interpret_moral_density r))])
    <$> scores !! "moral_nonmoral_ratio" ->
  (acontains summary "moral_density" = true <->
   is_Some (scores !! "moral_nonmoral_ratio")) /\
  lookup_path summary ["moral_density"; "ratio"]
    = VFloat <$> scores !! "moral_nonmoral_ratio" /\
  lookup_path summary ["moral_density"; "interpretation"]
    = (fun r => VStr (_interpret_moral_density r))
        <$> scores !! "moral_nonmoral_ratio".
Proof.
  intros H. unfold acontains. cbn [lookup_path]. rewrite H.
  destruct (scores !! "moral_nonmoral_ratio") as [r |];
    cbn [fmap option_fmap option_map]; repeat split;
    try reflexivity; try discriminate; eauto.
  intros [v Hv]. discriminate Hv.
Qed.

Lemma recognised_dict_type (dict_type : string) :
  existsb (String.eqb dict_type) ["mfd"; "mfd2"] = true <->
  dict_type = "mfd" \/ dict_type = "mfd2".
Proof.
  cbn [existsb]. rewrite orb_false_r, orb_true_iff, !String.eqb_eq. tauto.
Qed.

(** The optional keys of a summary: [dominant_foundation] is there exactly
    for an eMFD record with at least one probability, [moral_density]
    exactly for a recognised dictionary type and a record with the ratio;
    the density entry carries the ratio of the record and its
    interpretation. *)
Theorem summary_optional_keys (scores : gmap string float)
    (dict_type : string) :
  exists summary,
    get_moral_summary scores dict_type = Ok summary /\
    (acontains summary "dominant_foundation" = true <->
     dict_type = "emfd" /\
     exists f, f ∈ emfd_foundations /\ is_Some (scores !! (f +:+ "_p"))) /\
    (acontains summary "moral_density" = true <->
     (dict_type = "emfd" \/ dict_type = "mfd" \/ dict_type = "mfd2") /\
     is_Some (scores !! "moral_nonmoral_ratio")) /\
    (dict_type = "emfd" \/ dict_type = "mfd" \/ dict_type = "mfd2" ->
     lookup_path summary ["moral_density"; "ratio"]
       = VFloat <$> scores !! "moral_nonmoral_ratio" /\
     lookup_path summary ["moral_density"; "interpretation"]
       = (fun r => VStr (_interpret_moral_density r))
           <$> scores !! "moral_nonmoral_ratio").
Proof.
  rewrite get_moral_summary_closed. eexists; split; [reflexivity |].
  unfold closed_summary.
  destruct (String.eqb_spec dict_type "emfd") as [-> | Hne].
  - destruct (density_key_facts scores _ (emfd_density_key scores))
      as (Hc & Hr & Hi).
    split; [| split].
    + rewrite emfd_dominant_key. tauto.
    + rewrite Hc. tauto.
    + intros _. split; assumption.
  - destruct (existsb (String.eqb dict_type) ["mfd"; "mfd2"]) eqn:Hm.
    + apply recognised_dict_type in Hm.
      destruct (density_key_facts scores _ (mfd_density_key scores dict_type))
        as (Hc & Hr & Hi).
      split; [| split].
      * split; [| intros [? _]; contradiction].
        unfold mfd_summary, acontains, density_entry.
        destruct (scores !! "moral_nonmoral_ratio"); discriminate.
      * rewrite Hc. tauto.
      * intros _. split; assumption.
    + assert (Hdt : ~ (dict_type = "mfd" \/ dict_type = "mfd2")).
      { rewrite <- recognised_dict_type, Hm. discriminate. }
      unfold acontains. cbn [aget String.eqb Ascii.eqb Bool.eqb].
      split; [| split].
      * split; [discriminate | intros [? _]; contradiction].
      * split; [discriminate | intros [? _]; tauto].
      * intros ?. tauto.
Qed.

Lemma present_scores_ext (s1 s2 : gmap string float) (suffix : string)
    (fs : list string) :
  (forall f, f ∈ fs -> s1 !! (f +:+ suffix) = s2 !! (f +:+ suffix)) ->
  present_scores s1 suffix fs = present_scores s2 suffix fs.
Proof.
  induction fs as [| f fs IH]; intros H; [reflexivity |].
  rewrite !present_scores_cons, (H f) by left.
  rewrite IH; [reflexivity |]. intros g Hg. apply H. right. exact Hg.
Qed.

Lemma mfd_entries_ext (s1 s2 : gmap string float) (fs : list string) :
  (forall f, f ∈ fs -> s1 !! f = s2 !! f) ->
  mfd_entries s1 fs = mfd_entries s2 fs.
Proof.
  induction fs as [| f fs IH]; intros H; [reflexivity |].
  rewrite !mfd_entries_cons, (H f) by left.
  rewrite IH; [reflexivity |]. intros g Hg. apply H. right. exact Hg.
Qed.

Lemma density_entry_ext (s1 s2 : gmap string float) :
  s1 !! "moral_nonmoral_ratio" = s2 !! "moral_nonmoral_ratio" ->
  density_entry s1 = density_entry s2.
Proof. intros H. unfold density_entry. rewrite H. reflexivity. Qed.

(** The summary depends on the record only through the score keys that the
    dictionary type calls for: two records that agree on these keys have
    the same summary, whatever else they hold. *)
Theorem summary_ignores_other_keys (s1 s2 : gmap string float)
    (dict_type : string) :
  (forall key, In key (map fst (derived_fields dict_type)) ->
               s1 !! key = s2 !! key) ->
  get_moral_summary s1 dict_type = get_moral_summary s2 dict_type.
Proof.
  intros Hagree. rewrite !get_moral_summary_closed. f_equal.
  unfold closed_summary, derived_fields in *.
  destruct (String.eqb dict_type "emfd").
  - assert (Hkey : forall f suffix,
              f ∈ emfd_foundations -> suffix = "_p" \/ suffix = "_sent" ->
              s1 !! (f +:+ suffix) = s2 !! (f +:+ suffix)).
    { intros f suffix Hf Hsuf. apply Hagree.
      rewrite map_app. apply in_or_app. left.
      apply in_map_iff.
      destruct Hsuf as [-> | ->];
        eexists; (split; [| apply in_flat_map; exists f;
                            split; [apply list_elem_of_In; exact Hf |]]).
      2: left; reflexivity. 1: reflexivity.
      2: right; left; reflexivity. reflexivity. }
    unfold emfd_summary.
    rewrite (present_scores_ext s1 s2 "_p") by (intros; apply Hkey; auto).
    rewrite (present_scores_ext s1 s2 "_sent") by (intros; apply Hkey; auto).
    rewrite (density_entry_ext s1 s2); [reflexivity |].
    apply Hagree. rewrite map_app. apply in_or_app. right. left. reflexivity.
  - destruct (existsb (String.eqb dict_type) ["mfd"; "mfd2"]); [| reflexivity].
    unfold mfd_summary.
    rewrite (mfd_entries_ext s1 s2).
    + rewrite (density_entry_ext s1 s2); [reflexivity |].
      apply Hagree. rewrite map_app. apply in_or_app. right. left. reflexivity.
    + intros f Hf. apply Hagree. rewrite map_app. apply in_or_app. left.
      rewrite map_map. cbn [fst]. rewrite map_id.
      apply list_elem_of_In. exact Hf.
Qed.

Lemma summary_ignores_other_keys_witness :
  (forall key, In key (map fst (derived_fields "emfd")) ->
               sample_scores !! key
               = (<["document_id" := lit_1_0]> sample_scores) !! key) /\
  get_moral_summary sample_scores "emfd"
  = get_moral_summary (<["document_id" := lit_1_0]> sample_scores) "emfd".
Proof.
  assert (H : forall key, In key (map fst (derived_fields "emfd")) ->
               sample_scores !! key
               = (<["document_id" := lit_1_0]> sample_scores) !! key).
  { intros key Hkey. cbn in Hkey.
    repeat (destruct Hkey as [<- | Hkey]; [vm_compute; reflexivity |]).
    destruct Hkey. }
  split; [exact H |].
  apply (summary_ignores_other_keys sample_scores _ "emfd" H).
Defined.

(** The direction of a sentiment: [positive] exactly above zero, [negative]
    exactly below zero, [neutral] for a zero of either sign and for NaN. *)
Theorem sentiment_direction_cases (s : float) :
  (sentiment_direction s = "positive" <-> gt s zero = true) /\
  (sentiment_direction s = "negative" <-> lt s zero = true) /\
  (sentiment_direction s = "neutral"
   <-> is_nan s = true \/ eqb s zero = true).
Proof.
  unfold sentiment_direction.
  destruct (gt s zero) eqn:Hg; [| destruct (lt s zero) eqn:Hl].
  - assert (Hl : lt s zero = false).
    { apply gt_ord in Hg as (Hn & _ & Hg). apply lt_false.
      right; right. lia. }
    rewrite Hl. repeat split; try discriminate; try reflexivity.
    intros [Hn | He].
    + apply gt_ord in Hg as (Hn' & _). rewrite Hn in Hn'. discriminate Hn'.
    + apply eqb_ord in He as (_ & _ & He). apply gt_ord in Hg as (_ & _ & Hg).
      lia.
  - repeat split; try discriminate; try reflexivity.
    intros [Hn | He].
    + apply lt_ord in Hl as (Hn' & _). rewrite Hn in Hn'. discriminate Hn'.
    + apply eqb_ord in He as (_ & _ & He). apply lt_ord in Hl as (_ & _ & Hl).
      lia.
  - repeat split; try discriminate; try reflexivity.
    intros _. destruct (is_nan s) eqn:Hn; [left; reflexivity | right].
    apply gt_false in Hg. apply lt_false in Hl.
    rewrite Hn in Hg, Hl. change (is_nan zero) with false in *.
    apply eqb_ord. split; [exact Hn |]. split; [reflexivity |].
    destruct Hg as [Hf | [Hf | Hg]]; try discriminate Hf.
    destruct Hl as [Hf | [Hf | Hl]]; try discriminate Hf.
    lia.
Qed.

(** The item [max] picks is one of the items, and none exceeds it. *)
Lemma first_max_is_max (x : string * float) (rest : list (string * float)) :
  first_max x rest ∈ x :: rest /\
  forall y, y ∈ x :: rest -> gt y.2 (first_max x rest).2 = false.
Proof.
  destruct (first_max_split x rest) as (l1 & l2 & Heq & Hahead & Hnever).
  rewrite Heq. split.
  - apply elem_of_app. right. left.
  - intros y Hy. apply elem_of_app in Hy as [Hy | Hy]; [apply (Hahead y Hy) |].
    apply elem_of_cons in Hy as [-> | Hy]; [apply gt_irrefl | apply (Hnever y Hy)].
Qed.

Lemma emfd_dominant_value (scores : gmap string float)
    (x : string * float) (rest : list (string * float)) :
  present_scores scores "_p" emfd_foundations = x :: rest ->
  aget (closed_summary scores "emfd") "dominant_foundation" =
  Some (VDict [("name", VStr (first_max x rest).1);
               ("probability", VFloat (first_max x rest).2)]).
Proof.
  intros Hps. unfold closed_summary. cbn [String.eqb Ascii.eqb Bool.eqb].
  unfold emfd_summary. rewrite Hps. reflexivity.
Qed.

(** On an eMFD record with at least one probability (not necessarily all
    five), the reported dominant foundation is one the record has a
    probability for, with that probability, and no foundation of the record
    has a greater one. *)
Theorem dominant_foundation_of_partial_record (scores : gmap string float) :
  (exists f, f ∈ emfd_foundations /\ is_Some (scores !! (f +:+ "_p"))) ->
  exists summary name prob,
    get_moral_summary scores "emfd" = Ok summary /\
    aget summary "dominant_foundation" =
      Some (VDict [("name", VStr name); ("probability", VFloat prob)]) /\
    name ∈ emfd_foundations /\
    scores !! (name +:+ "_p") = Some prob /\
    forall g v, g ∈ emfd_foundations -> scores !! (g +:+ "_p") = Some v ->
                gt v prob = false.
Proof.
  intros (f & Hf & [u Hu]).
  destruct (present_scores scores "_p" emfd_foundations) as [| x rest] eqn:Hps.
  { rewrite (proj1 (present_scores_nil _ _ _) Hps f Hf) in Hu. discriminate Hu. }
  destruct (first_max_is_max x rest) as [Hin Hmax].
  rewrite <- Hps in Hin, Hmax.
  destruct (first_max x rest) as [name prob] eqn:Hr.
  apply elem_of_present_scores in Hin as [Hname Hprob].
  exists (closed_summary scores "emfd"), name, prob.
  split; [apply get_moral_summary_closed |].
  split; [rewrite (emfd_dominant_value _ _ _ Hps), Hr; reflexivity |].
  split; [exact Hname |]. split; [exact Hprob |].
  intros g v Hg Hv.
  apply (Hmax (g, v)). apply elem_of_present_scores. auto.
Qed.

Lemma dominant_foundation_of_partial_record_witness :
  (exists f, f ∈ emfd_foundations /\ is_Some (partial_scores !! (f +:+ "_p"))) /\
  exists summary name prob,
    get_moral_summary partial_scores "emfd" = Ok summary /\
    aget summary "dominant_foundation" =
      Some (VDict [("name", VStr name); ("probability", VFloat prob)]) /\
    partial_scores !! (name +:+ "_p") = Some prob.
Proof.
  assert (H : exists f, f ∈ emfd_foundations /\
                        is_Some (partial_scores !! (f +:+ "_p"))).
  { exists "care". split; [left |]. vm_compute. eauto. }
  split; [exact H |].
  destruct (dominant_foundation_of_partial_record partial_scores H)
    as (summary & name & prob & Hs & Hd & _ & Hp & _).
  exists summary, name, prob. auto.
Defined.

(** The demonstration script computes the dominant foundation on its own,
    with a default of 0 for a missing probability; on a record that has the
    five probabilities it finds the foundation and the probability that the
    summary reports. *)
Theorem demo_dominant_agrees (scores : gmap string float) :
  (forall f, f ∈ emfd_foundations -> is_Some (scores !! (f +:+ "_p"))) ->
  exists summary dominant,
    demo_dominant scores = Ok dominant /\
    get_moral_summary scores "emfd" = Ok summary /\
    aget summary "dominant_foundation" =
      Some (VDict [("name", VStr dominant.1);
                   ("probability", VFloat dominant.2)]).
Proof.
  intros Hall.
  pose proof (present_scores_all scores "_p" emfd_foundations Hall) as Hps.
  change (map _ emfd_foundations) with (demo_prob_scores scores) in Hps.
  unfold demo_dominant.
  destruct (demo_prob_scores scores) as [| x rest] eqn:Hdemo;
    [discriminate Hdemo |].
  exists (closed_summary scores "emfd"), (first_max x rest).
  split; [reflexivity |].
  split; [apply get_moral_summary_closed |].
  apply emfd_dominant_value. exact Hps.
Qed.

Lemma demo_dominant_agrees_witness :
  (forall f, f ∈ emfd_foundations -> is_Some (sample_scores !! (f +:+ "_p"))) /\
  exists summary dominant,
    demo_dominant sample_scores = Ok dominant /\
    get_moral_summary sample_scores "emfd" = Ok summary /\
    aget summary "dominant_foundation" =
      Some (VDict [("name", VStr dominant.1);
                   ("probability", VFloat dominant.2)]).
Proof.
  assert (Hall : forall f, f ∈ emfd_foundations ->
                           is_Some (sample_scores !! (f +:+ "_p"))).
  { intros f Hf. unfold emfd_foundations in Hf.
    repeat (apply elem_of_cons in Hf as [-> | Hf]);
      [| | | | | inversion Hf]; vm_compute; eauto. }
  split; [exact Hall |].
  exact (demo_dominant_agrees sample_scores Hall).
Defined.

(** Without the five probabilities the two can differ: the default 0 of the
    script stands for care and ties with a fairness of 0. *)
Example demo_dominant_differs :
  demo_dominant {[ "fairness_p" := zero ]} = Ok ("care", zero) /\
  (summary ← get_moral_summary {[ "fairness_p" := zero ]} "emfd";
   agetitem summary "dominant_foundation") =
  Ok (VDict [("name", VStr "fairness"); ("probability", VFloat zero)]).
Proof. split; vm_compute; reflexivity. Qed.

(** The demonstration script indexes the summary with
    [dominant_foundation] directly: this raises [KeyError] exactly on the
    records without any probability (the empty record among them), and
    yields the name of a foundation on all others. *)
Theorem demo_dominant_name_key_error (scores : gmap string float) :
  (demo_dominant_name scores = Raise (KeyError "dominant_foundation") <->
   forall f, f ∈ emfd_foundations -> scores !! (f +:+ "_p") = None) /\
  ((exists f, f ∈ emfd_foundations /\ is_Some (scores !! (f +:+ "_p"))) ->
   exists name,
     demo_dominant_name scores = Ok (VStr name) /\ name ∈ emfd_foundations).
Proof.
  unfold demo_dominant_name. rewrite get_moral_summary_closed.
  unfold mbind, result_bind, agetitem.
  destruct (present_scores scores "_p" emfd_foundations) as [| x rest] eqn:Hps.
  - pose proof (proj1 (present_scores_nil _ _ _) Hps) as Hnone.
    assert (Hd : aget (closed_summary scores "emfd") "dominant_foundation"
                 = None).
    { unfold closed_summary. cbn [String.eqb Ascii.eqb Bool.eqb].
      unfold emfd_summary, density_entry. rewrite Hps.
      destruct (scores !! "moral_nonmoral_ratio"); reflexivity. }
    rewrite Hd. split; [split; [intros _; exact Hnone | reflexivity] |].
    intros (f & Hf & [u Hu]). rewrite (Hnone f Hf) in Hu. discriminate Hu.
  - rewrite (emfd_dominant_value _ _ _ Hps).
    cbn [aget String.eqb Ascii.eqb Bool.eqb].
    destruct (first_max_is_max x rest) as [Hin _].
    rewrite <- Hps in Hin.
    destruct (first_max x rest) as [name prob].
    apply elem_of_present_scores in Hin as [Hname Hprob].
    split.
    + split; [discriminate |].
      intros Hnone. rewrite (Hnone name Hname) in Hprob. discriminate Hprob.
    + intros _. exists name. split; [reflexivity | exact Hname].
Qed.

Lemma foundation_entry_truthy (scores : gmap string float) (f : string) :
  f ∈ emfd_foundations ->
  truthy (foundation_entry (present_scores scores "_p" emfd_foundations)
            (present_scores scores "_sent" emfd_foundations) f)
  = contains scores (f +:+ "_p") || contains scores (f +:+ "_sent").
Proof.
  intros Hf. unfold foundation_entry, contains.
  rewrite !aget_present_scores, (bool_decide_eq_true_2 _ Hf).
  destruct (scores !! (f +:+ "_p")), (scores !! (f +:+ "_sent")); reflexivity.
Qed.

Lemma foundation_entries_keys (scores : gmap string float) (fs : list string) :
  (forall f, f ∈ fs -> f ∈ emfd_foundations) ->
  map fst (foundation_entries (present_scores scores "_p" emfd_foundations)
             (present_scores scores "_sent" emfd_foundations) fs)
  = List.filter (fun f => contains scores (f +:+ "_p")
                          || contains scores (f +:+ "_sent")) fs.
Proof.
  induction fs as [| f fs IH]; intros Hsub; [reflexivity |].
  rewrite foundation_entries_cons, foundation_entry_truthy by (apply Hsub; left).
  cbn [List.filter].
  destruct (contains scores (f +:+ "_p") || contains scores (f +:+ "_sent"));
    cbn [map fst]; rewrite IH; try reflexivity;
    intros g Hg; apply Hsub; right; exact Hg.
Qed.

(** The foundations of an eMFD summary come in the canonical order: the
    keys of [moral_foundations] are care, fairness, loyalty, authority and
    sanctity, in this order, less those for which the record has neither a
    probability nor a sentiment. *)
Theorem moral_foundations_in_order (scores : gmap string float) :
  exists summary d,
    get_moral_summary scores "emfd" = Ok summary /\
    aget summary "moral_foundations" = Some (VDict d) /\
    map fst d = List.filter (fun f => contains scores (f +:+ "_p")
                                      || contains scores (f +:+ "_sent"))
                  emfd_foundations.
Proof.
  rewrite get_moral_summary_closed.
  eexists; eexists; split; [reflexivity |].
  unfold closed_summary. cbn [String.eqb Ascii.eqb Bool.eqb].
  unfold emfd_summary. cbn [aget String.eqb Ascii.eqb Bool.eqb].
  split; [reflexivity |].
  apply foundation_entries_keys. auto.
Qed.

End SummaryExtras.


(* ===================================================================== *)
(** ** More on file and batch analysis *)
(* ===================================================================== *)

Module AnalysisExtras.
Import TextExtraction MoralAnalysis Spec SpecExtras Samples MoreSamples Callers.
Import AnalysisFacts.

(** [split] finds at most one word per character, and at least one word in
    a text that is not blank. *)
Lemma split_from_length (cur t : text) :
  (length (split_from cur t) <= length t + (if truthy cur then 1 else 0))%nat.
Proof.
  revert cur. induction t as [| c t IH]; intros cur; cbn [split_from length].
  - destruct (truthy cur); cbn [length]; lia.
  - destruct (isspace c).
    + destruct (truthy cur); cbn [length]; specialize (IH []);
        cbn [truthy] in IH; lia.
    + specialize (IH (c :: cur)). cbn [truthy] in IH.
      destruct (truthy cur); lia.
Qed.

Lemma split_from_nonempty (cur t : text) :
  truthy cur = true \/ forallb isspace t = false ->
  (1 <= length (split_from cur t))%nat.
Proof.
  revert cur. induction t as [| c t IH]; intros cur H; cbn [split_from].
  - destruct H as [H | H]; [rewrite H; cbn [length]; lia | discriminate H].
  - cbn [forallb] in H. destruct (isspace c); cbn [andb] in H.
    + destruct (truthy cur) eqn:Hc; [cbn [length]; lia |].
      apply IH. destruct H as [H | H]; [discriminate H | auto].
    + apply IH. left. reflexivity.
Qed.

Lemma split_length (t : text) :
  (length (split t) <= length t)%nat /\
  (is_blank t = false -> (1 <= length (split t))%nat).
Proof.
  unfold split, is_blank. split.
  - pose proof (split_from_length [] t) as H. cbn [truthy] in H. lia.
  - intros H. apply split_from_nonempty. auto.
Qed.

(** A successful file analysis is about the path it was asked for, with the
    parameters it was given; its text is what the manager extracted and is
    not blank, its scores are those of [analyze_text] on this text, and its
    counts are consistent: at least one word, and no more words than
    characters. *)
Theorem analyze_file_result (w : world) (b : backend) (es : list extractor)
    (path : string) (p : parameters) (kw : kwargs) (r : file_analysis) :
  analyze_file w b es path p kw = Ok r ->
  os_path_exists w path = true /\
  file_path r = path /\
  analysis_parameters r = p /\
  extract_text w es path kw = Ok (extracted_text r) /\
  get_file_metadata es path = Ok (file_metadata r) /\
  analyze_text b (extracted_text r) p = Ok (moral_scores r) /\
  is_blank (extracted_text r) = false /\
  text_length r = length (extracted_text r) /\
  (1 <= word_count r <= text_length r)%nat.
Proof.
  unfold analyze_file, mbind, result_bind.
  destruct (extract_text w es path kw) as [t |] eqn:Ht; [| discriminate].
  destruct (get_file_metadata es path) as [m |] eqn:Hm; [| discriminate].
  destruct (analyze_text b t p) as [sc |] eqn:Hs; [| discriminate].
  intros [= <-]. cbn [file_path analysis_parameters extracted_text
                      file_metadata moral_scores text_length word_count].
  assert (Hex : os_path_exists w path = true).
  { unfold extract_text, extract_text_logged in Ht.
    destruct (os_path_exists w path); [reflexivity | discriminate Ht]. }
  assert (Hb : is_blank t = false).
  { unfold analyze_text in Hs. rewrite truthy_strip in Hs.
    destruct (is_blank t); [discriminate Hs | reflexivity]. }
  destruct (split_length t) as [Hle Hge].
  repeat split; auto.
Qed.

Lemma analyze_file_result_witness :
  analyze_file sample_world sample_backend sample_extractors "notes.txt"
    default_parameters no_kwargs = Ok sample_analysis /\
  (1 <= word_count sample_analysis <= text_length sample_analysis)%nat.
Proof.
  assert (H : analyze_file sample_world sample_backend sample_extractors
                "notes.txt" default_parameters no_kwargs = Ok sample_analysis)
    by reflexivity.
  split; [exact H |].
  apply (analyze_file_result _ _ _ _ _ _ _ H).
Defined.

(** A file whose text is blank (an empty text file, for one) is not
    scored: once its metadata are read, the analysis raises "Input text is
    empty", with any scoring stack. *)
Theorem analyze_file_blank_text (w : world) (b : backend)
    (es : list extractor) (path : string) (p : parameters) (kw : kwargs)
    (t : text) :
  extract_text w es path kw = Ok t ->
  is_blank t = true ->
  analyze_file w b es path p kw =
  match get_file_metadata es path with
  | Ok _ => Raise (ValueError "Input text is empty")
  | Raise e => Raise e
  end.
Proof.
  intros Ht Hb. unfold analyze_file, mbind, result_bind. rewrite Ht.
  destruct (get_file_metadata es path); [| reflexivity].
  unfold analyze_text. rewrite truthy_strip, Hb. reflexivity.
Qed.

Lemma analyze_file_blank_text_witness :
  extract_text bare_world (default_extractors bare_world) "blank.txt" no_kwargs
    = Ok [32; 10; 9]%N /\
  is_blank [32; 10; 9]%N = true /\
  analyze_file bare_world sample_backend (default_extractors bare_world)
    "blank.txt" default_parameters no_kwargs
  = Raise (ValueError "Input text is empty").
Proof.
  split; [reflexivity |]. split; [reflexivity |].
  rewrite (analyze_file_blank_text bare_world sample_backend
             (default_extractors bare_world) "blank.txt" default_parameters
             no_kwargs [32; 10; 9]%N eq_refl eq_refl).
  reflexivity.
Defined.

(** A path that does not exist costs a batch nothing but its own entry:
    the entry records the path and the "File not found" message, and the
    scoring stack is not involved. *)
Theorem analyze_batch_missing_file (w : world) (b : backend)
    (es : list extractor) (paths : list string) (p : parameters)
    (kw : kwargs) (i : nat) (path : string) :
  paths !! i = Some path ->
  os_path_exists w path = false ->
  analyze_file w b es path p kw =
    Raise (FileNotFoundError ("File not found: " +:+ path)) /\
  analyze_batch w b es paths p kw !! i =
    Some (Failed path ("File not found: " +:+ path)).
Proof.
  intros Hi Hex.
  assert (Hf : analyze_file w b es path p kw =
               Raise (FileNotFoundError ("File not found: " +:+ path))).
  { unfold analyze_file, extract_text, extract_text_logged. rewrite Hex.
    reflexivity. }
  split; [exact Hf |].
  unfold analyze_batch. rewrite batch_fold. cbn [app].
  change (map ?f ?l) with (f <$> l). rewrite list_lookup_fmap, Hi.
  cbn [fmap option_fmap option_map]. unfold entry_of. rewrite Hf. reflexivity.
Qed.

Lemma analyze_batch_missing_file_witness :
  ["notes.txt"; "missing.txt"] !! 1%nat = Some "missing.txt" /\
  os_path_exists sample_world "missing.txt" = false /\
  analyze_batch sample_world sample_backend sample_extractors
    ["notes.txt"; "missing.txt"] default_parameters no_kwargs !! 1%nat
  = Some (Failed "missing.txt" "File not found: missing.txt").
Proof.
  split; [reflexivity |]. split; [reflexivity |].
  apply (analyze_batch_missing_file sample_world sample_backend
           sample_extractors ["notes.txt"; "missing.txt"] default_parameters
           no_kwargs 1 "missing.txt"); reflexivity.
Defined.

Lemma entry_of_path (w : world) (b : backend) (es : list extractor)
    (p : parameters) (kw : kwargs) (path : string) :
  entry_path (entry_of w b es p kw path) = path.
Proof.
  unfold entry_of, analyze_file, mbind, result_bind.
  destruct (extract_text w es path kw); [| reflexivity].
  destruct (get_file_metadata es path); [| reflexivity].
  destruct (analyze_text b a p); reflexivity.
Qed.

(** The files of a batch are analysed independently: the batch of two lists
    of paths in a row is the batch of the first followed by the batch of
    the second, and every entry, analysed or failed, records the path it is
    about. *)
Theorem analyze_batch_app (w : world) (b : backend) (es : list extractor)
    (paths1 paths2 : list string) (p : parameters) (kw : kwargs) :
  analyze_batch w b es (paths1 ++ paths2) p kw =
    (analyze_batch w b es paths1 p kw ++ analyze_batch w b es paths2 p kw)%list /\
  map entry_path (analyze_batch w b es paths1 p kw) = paths1.
Proof.
  unfold analyze_batch. rewrite !batch_fold. cbn [app]. split.
  - apply map_app.
  - rewrite map_map. rewrite <- (map_id paths1) at 2.
    apply map_ext. intros path. apply entry_of_path.
Qed.

(** For a dictionary type other than [emfd], [analyze_text] does not pass
    the probability mapping and the output metrics on: its outcome is the
    same whatever they are. *)
Theorem analyze_text_ignores_emfd_options (b : backend) (t : text)
    (p : parameters) (pm om : string) :
  dict_type p <> "emfd" ->
  analyze_text b t p =
  analyze_text b t {| dict_type := dict_type p; prob_map := pm;
                      score_method := score_method p;
                      output_metrics := om |}.
Proof.
  intros Hne. unfold analyze_text, score_text.
  cbn [dict_type prob_map score_method output_metrics].
  apply String.eqb_neq in Hne. rewrite Hne. reflexivity.
Qed.

Lemma analyze_text_ignores_emfd_options_witness :
  "mfd2" <> "emfd" /\
  analyze_text sample_backend sample_text
    {| dict_type := "mfd2"; prob_map := "all"; score_method := "bow";
       output_metrics := "sentiment" |} =
  analyze_text sample_backend sample_text
    {| dict_type := "mfd2"; prob_map := "single"; score_method := "bow";
       output_metrics := "vice-virtue" |}.
Proof.
  split; [discriminate |].
  apply (analyze_text_ignores_emfd_options sample_backend sample_text
           {| dict_type := "mfd2"; prob_map := "all"; score_method := "bow";
              output_metrics := "sentiment" |} "single" "vice-virtue").
  discriminate.
Defined.

End AnalysisExtras.
